(** * Coffee-shop drinks API: a shallow embedding of [backend/src/api.py]

    The Flask view functions, the attribute check and the error handlers of
    [api.py] are transcribed as functions in a state-and-exception monad over
    the drinks table.  Python's [abort(code)] raises an [HTTPException], which
    is an [Exception] like any other: a surrounding [try ... except Exception]
    catches it, and the embedding keeps that.

    Two modules that [api.py] imports are outside the sources at hand:
    [database/models.py] (the [Drink] model) and [auth/auth.py]
    ([requires_auth], [AuthError]).  The data layer is modelled from the
    specification, the authorization check and the table constraints are
    section parameters.  Response headers and the log file are left out. *)

From Stdlib Require Import ZArith List String Ascii Bool Lia.
Import ListNotations.

Local Open Scope Z_scope.
Local Open Scope string_scope.

(** ** JSON values as Python sees them after [request.get_json()] *)

(** Numbers are restricted to integers: the code never computes with them, it
    only tests them for truthiness.  An object is its list of fields; [assoc]
    reads the first binding of a key. *)
#[local] Unset Elimination Schemes.
Inductive json : Type :=
| JNull
| JBool (b : bool)
| JNum (n : Z)
| JStr (s : string)
| JArr (items : list json)
| JObj (fields : list (string * json)).
#[local] Set Elimination Schemes.

(** Python truthiness: [None], [False], [0], [""], [[]] and [{}] are falsy. *)
Definition truthy (v : json) : bool :=
  match v with
  | JNull => false
  | JBool b => b
  | JNum n => negb (Z.eqb n 0)
  | JStr s => negb (String.eqb s "")
  | JArr items => match items with [] => false | _ :: _ => true end
  | JObj fields => match fields with [] => false | _ :: _ => true end
  end.

(** [type(v) != list] is [negb (is_list v)]. *)
Definition is_list (v : json) : bool :=
  match v with JArr _ => true | _ => false end.

Definition is_dict (v : json) : bool :=
  match v with JObj _ => true | _ => false end.

Fixpoint assoc (k : string) (fields : list (string * json)) : option json :=
  match fields with
  | [] => None
  | (k', v) :: rest => if String.eqb k k' then Some v else assoc k rest
  end.

(** [d.get(k)] on a dict: the value, or [None] when the key is absent. *)
Definition dict_get (fields : list (string * json)) (k : string) : json :=
  match assoc k fields with Some v => v | None => JNull end.

(** ** Exceptions, responses and the monad of a view function *)

(** [AuthError] as [api.py] reads it: [error.status_code] and the dict
    [error.error]. *)
Record AuthError : Type := mkAuthError
  { error : list (string * json);
    status_code : Z }.

Inductive exn : Type :=
| HTTPException (code : Z)        (* raised by abort(code) and get_or_404 *)
| AttributeError                  (* v.get on a value that is not a dict   *)
| KeyError                        (* r[k] on a dict without k              *)
| TypeError
| MultipleResultsFound            (* one_or_none() on several rows         *)
| SQLAlchemyError                 (* the data store refuses a statement    *)
| Unauthorized (e : AuthError).   (* raised by the requires_auth decorator *)

(** A drink row.  The [recipe] column holds [json.dumps] of the payload's
    recipe and is read back with [json.loads]; the embedding keeps the value
    itself. *)
Record Drink : Type := mkDrink
  { id : Z;
    title : string;
    recipe : json }.

Definition Store : Type := list Drink.

Inductive result (A : Type) : Type :=
| Returned (a : A)
| Raised (e : exn).
Arguments Returned {A} a.
Arguments Raised {A} e.

Definition M (A : Type) : Type := Store -> result A * Store.

Definition ret {A} (a : A) : M A := fun s => (Returned a, s).

Definition raise {A} (e : exn) : M A := fun s => (Raised e, s).

Definition bind {A B} (m : M A) (k : A -> M B) : M B :=
  fun s =>
    match m s with
    | (Returned a, s') => k a s'
    | (Raised e, s') => (Raised e, s')
    end.

(** [try: m except Exception as e: h e]: every exception of [exn] is an
    [Exception], the HTTP ones included. *)
Definition try_except {A} (m : M A) (h : exn -> M A) : M A :=
  fun s =>
    match m s with
    | (Returned a, s') => (Returned a, s')
    | (Raised e, s') => h e s'
    end.

Declare Scope py_scope.
Delimit Scope py_scope with py.
Notation "x <- m ;; k" := (bind m (fun x => k))
  (at level 100, m at next level, right associativity) : py_scope.
Notation "m ;;; k" := (bind m (fun _ => k))
  (at level 100, right associativity) : py_scope.
Local Open Scope py_scope.

(** [abort(code)] *)
Definition abort {A} (code : Z) : M A := raise (HTTPException code).

(** [logging.exception(e)] appends to [api.log]; the log is not part of the
    modelled state. *)
Definition logging_exception (e : exn) : M unit := ret tt.

(** [v.get(k)]: only a dict has the attribute. *)
Definition get (v : json) (k : string) : M json :=
  match v with
  | JObj fields => ret (dict_get fields k)
  | _ => raise AttributeError
  end.

(** [r[k]] *)
Definition getitem (v : json) (k : string) : M json :=
  match v with
  | JObj fields =>
      match assoc k fields with Some x => ret x | None => raise KeyError end
  | _ => raise TypeError
  end.

(** Short-circuit [a or b] on conditions that may raise. *)
Definition por (a b : M bool) : M bool :=
  x <- a ;; if x then ret true else b.

Definition when (c : bool) (m : M unit) : M unit :=
  if c then m else ret tt.

(** [for x in l: body x] *)
Fixpoint for_each {A} (l : list A) (body : A -> M unit) : M unit :=
  match l with
  | [] => ret tt
  | x :: rest => body x ;;; for_each rest body
  end.

Fixpoint map_m {A B} (f : A -> M B) (l : list A) : M (list B) :=
  match l with
  | [] => ret []
  | x :: rest => y <- f x ;; ys <- map_m f rest ;; ret (y :: ys)
  end.

(** The items a [for] loop walks over; [check_drink_attribute] only reaches
    its loop with a list. *)
Definition iter (v : json) : M (list json) :=
  match v with
  | JArr items => ret items
  | _ => raise TypeError
  end.

(** ** [check_drink_attribute] (api.py, lines 18-27) *)

Definition recipe_entry_bad (r : json) : M bool :=
  por (v <- get r "name" ;; ret (negb (truthy v)))
      (por (v <- get r "parts" ;; ret (negb (truthy v)))
           (v <- get r "color" ;; ret (negb (truthy v)))).

Definition check_drink_attribute (data : json) : M unit :=
  bad <- por (v <- get data "title" ;; ret (negb (truthy v)))
             (por (v <- get data "recipe" ;; ret (negb (truthy v)))
                  (v <- get data "recipe" ;; ret (negb (is_list v)))) ;;
  when bad (abort 422) ;;;
  recipe <- get data "recipe" ;;
  entries <- iter recipe ;;
  for_each entries
    (fun r => bad <- recipe_entry_bad r ;; when bad (abort 422)).

(** ** The data layer *)

(** Modelled from the spec: the query interface of the [Drink] model
    ([database/models.py] is not among the sources).  The table is the list
    of its rows in insertion order; [Drink.query.all()] returns all of them
    and [filter] keeps the rows that satisfy the condition.  Keys are
    compared as integers: an id beyond the integers of the data store
    (2^63 and above on SQLite, where binding it raises) is outside the
    model, and the theorem about the lookup of an unknown id bounds the
    id. *)
Definition query_all : M (list Drink) :=
  fun s => (Returned s, s).

Definition query_filter (p : Drink -> bool) : M (list Drink) :=
  fun s => (Returned (filter p s), s).

(** [Query.one_or_none()]: no row gives [None], one row gives it, several
    rows raise [MultipleResultsFound]. *)
Definition one_or_none (rows : list Drink) : M (option Drink) :=
  match rows with
  | [] => ret None
  | [d] => ret (Some d)
  | _ :: _ :: _ => raise MultipleResultsFound
  end.

(** [Query.get_or_404(ident)]: the row with that primary key, or
    [abort(404)]. *)
Definition get_or_404 (ident : Z) : M Drink :=
  fun s =>
    match find (fun d => Z.eqb (id d) ident) s with
    | Some d => (Returned d, s)
    | None => abort 404 s
    end.

(** Modelled from the spec: [delete] destroys the row (no soft delete). *)
Definition delete (d : Drink) : M unit :=
  fun s => (Returned tt, filter (fun x => negb (Z.eqb (id x) (id d))) s).

(** Modelled from the spec: the title column is a string; binding any other
    value to it is taken to be refused by the data store.  What a store does
    with a title that is no string is its own affair (SQLite keeps a number
    as text); the theorems below take the title to be a string wherever the
    write matters. *)
Definition column_text (v : json) : M string :=
  match v with
  | JStr s => ret s
  | _ => raise SQLAlchemyError
  end.

(** SQL [lower()]: the letters A-Z are mapped to a-z. *)
Definition lower_ascii (c : ascii) : ascii :=
  let n := N_of_ascii c in
  if (N.leb 65 n && N.leb n 90)%bool then ascii_of_N (n + 32) else c.

Fixpoint lower (s : string) : string :=
  match s with
  | EmptyString => EmptyString
  | String c rest => String (lower_ascii c) (lower rest)
  end.

(** Modelled from the spec: the two representations of a drink.  "short"
    exposes only color and parts of every recipe entry, "long" the full
    entries, name included. *)
Definition short_entry (r : json) : M json :=
  c <- getitem r "color" ;;
  p <- getitem r "parts" ;;
  ret (JObj [("color", c); ("parts", p)]).

Definition short (d : Drink) : M json :=
  entries <- iter (recipe d) ;;
  short_recipe <- map_m short_entry entries ;;
  ret (JObj [("id", JNum (id d)); ("title", JStr (title d));
             ("recipe", JArr short_recipe)]).

Definition long (d : Drink) : M json :=
  ret (JObj [("id", JNum (id d)); ("title", JStr (title d));
             ("recipe", recipe d)]).

(** Primary keys are generated: one more than the largest key in use. *)
Definition next_id (s : Store) : Z :=
  1 + fold_right Z.max 0 (map id s).

(** ** Requests and responses *)

(** What the JSON parser makes of the request body: a document, [JNull]
    (Python's [None]) when the request declares no JSON, or nothing when the
    body is declared as JSON and does not parse. *)
Inductive Parse : Type :=
| Document (data : json)
| Malformed.

(** What a view reads of the request: the Authorization header and the
    body. *)
Record Request : Type := mkRequest
  { authorization : option string;
    content : Parse }.

(** [request.get_json()]: the parsed document; a body that does not parse
    raises [BadRequest], the exception of [abort(400)]. *)
Definition get_json (req : Request) : M json :=
  match content req with
  | Document data => ret data
  | Malformed => abort 400
  end.

(** A response body is JSON when it comes from [jsonify]; an HTTP error
    without a registered handler gets the framework's own HTML page. *)
Inductive Body : Type :=
| Json (j : json)
| Html.

Record Response : Type := mkResponse
  { status : Z;
    body : Body }.

Definition jsonify (fields : list (string * json)) : Response :=
  mkResponse 200 (Json (JObj fields)).

(** [return jsonify(fields), code] *)
Definition jsonify_with (fields : list (string * json)) (code : Z) : Response :=
  mkResponse code (Json (JObj fields)).

(** ** Error handlers (api.py, lines 203-270) *)

(** Each handler ignores the error it is called with and answers a fixed
    body with the code it is registered for; only [auth_error] reads its
    argument. *)

Definition bad_request : Response :=
  jsonify_with [("success", JBool false); ("error", JNum 400);
                ("message", JStr "Bad Request")] 400.

Definition unauthorized : Response :=
  jsonify_with [("success", JBool false); ("error", JNum 401);
                ("message", JStr "Unauthorized")] 401.

Definition forbidden : Response :=
  jsonify_with [("success", JBool false); ("error", JNum 403);
                ("message", JStr "Forbidden")] 403.

Definition not_found : Response :=
  jsonify_with [("success", JBool false); ("error", JNum 404);
                ("message", JStr "Resource not found")] 404.

Definition method_not_allowed : Response :=
  jsonify_with [("success", JBool false); ("error", JNum 405);
                ("message", JStr "Method not allowed")] 405.

Definition unprocessable : Response :=
  jsonify_with [("success", JBool false); ("error", JNum 422);
                ("message", JStr "Unprocessable")] 422.

Definition unknown : Response :=
  jsonify_with [("success", JBool false); ("error", JNum 500);
                ("message", JStr "Unknown server error")] 500.

Definition auth_error (e : AuthError) : Response :=
  jsonify_with [("success", JBool false);
                ("error", JNum (status_code e));
                ("error_code", dict_get (error e) "code");
                ("message", dict_get (error e) "description")]
               (status_code e).

(** The table built by the [@app.errorhandler(code)] decorators. *)
Definition errorhandler (code : Z) : option Response :=
  if Z.eqb code 400 then Some bad_request
  else if Z.eqb code 401 then Some unauthorized
  else if Z.eqb code 403 then Some forbidden
  else if Z.eqb code 404 then Some not_found
  else if Z.eqb code 405 then Some method_not_allowed
  else if Z.eqb code 422 then Some unprocessable
  else if Z.eqb code 500 then Some unknown
  else None.

(** What Flask answers when a view raises: the handler registered for the
    HTTP code or for [AuthError]; any other exception is an internal server
    error and goes to the handler registered for 500. *)
Definition handle_exception (e : exn) : Response :=
  match e with
  | HTTPException code =>
      match errorhandler code with
      | Some r => r
      | None => mkResponse code Html
      end
  | Unauthorized a => auth_error a
  | _ => unknown
  end.

(** ** Process start (api.py, lines 12-13 and 44-49) *)

(** [setup_db(app)] binds the application to the persisted table. *)
Definition setup_db (persisted : Store) : Store := persisted.

(** Modelled from the spec: [db_drop_and_create_all] of the absent
    [database/models.py], which [api.py] documents as "THIS WILL DROP ALL
    RECORDS AND START YOUR DB FROM SCRATCH": the table is dropped and
    created anew, empty. *)
Definition db_drop_and_create_all (s : Store) : Store := [].

(** The module body runs once when the process starts, before Flask serves
    a request. *)
Definition startup (persisted : Store) : Store :=
  db_drop_and_create_all (setup_db persisted).

(** ** Routes *)

Inductive Route : Type :=
| GET_drinks
| GET_drinks_detail
| POST_drinks
| PATCH_drinks (drink_id : Z)
| DELETE_drinks (drink_id : Z).

Section Api.

(** The check behind [@requires_auth(permission)] (spec 4.1-4.3): from the
    Authorization header either an [AuthError] or the decoded claim set. *)
Variable check_auth : string -> option string -> AuthError + json.

(** The constraints that the table declares in the absent model: whether
    the store refuses to hold the row next to the given ones. *)
Variable constraint_violated : Store -> Drink -> bool.

(** Modelled from the spec: [insert] creates a row with a generated id,
    [update] rewrites the row with the object's id; a refused write raises
    and leaves the table as it was. *)
Definition insert (t : string) (r : json) : M Drink :=
  fun s =>
    let d := mkDrink (next_id s) t r in
    if constraint_violated s d then (Raised SQLAlchemyError, s)
    else (Returned d, (s ++ [d])%list).

Definition update (d : Drink) : M unit :=
  fun s =>
    let others := filter (fun x => negb (Z.eqb (id x) (id d))) s in
    if constraint_violated others d then (Raised SQLAlchemyError, s)
    else (Returned tt, map (fun x => if Z.eqb (id x) (id d) then d else x) s).

(** The decorator: the view body runs only when the check passes. *)
Definition requires_auth {A} (permission : string) (req : Request)
    (f : json -> M A) : M A :=
  match check_auth permission (authorization req) with
  | inl e => raise (Unauthorized e)
  | inr payload => f payload
  end.

(** GET /drinks (lines 53-69) *)
Definition get_drinks : M Response :=
  try_except
    (drinks <- query_all ;;
     drinks_short <- map_m short drinks ;;
     ret (jsonify [("sucess", JBool true); ("drinks", JArr drinks_short)]))
    (fun e => logging_exception e ;;; abort 500).

(** GET /drinks-detail (lines 73-90) *)
Definition get_drinks_detail (payload : json) : M Response :=
  try_except
    (drinks <- query_all ;;
     drinks_long <- map_m long drinks ;;
     ret (jsonify [("sucess", JBool true); ("drinks", JArr drinks_long)]))
    (fun e => logging_exception e ;;; abort 500).

(** POST /drinks (lines 92-130) *)
Definition post_drink (payload : json) (req : Request) : M Response :=
  data <- get_json req ;;
  check_drink_attribute data ;;;
  t <- get data "title" ;;
  wanted <- column_text t ;;
  rows <- query_filter
            (fun d => String.eqb (lower (title d)) (lower wanted)) ;;
  drink <- one_or_none rows ;;
  when (match drink with Some _ => true | None => false end)
       (abort 422) ;;;
  try_except
    (t <- get data "title" ;;
     r <- get data "recipe" ;;
     t' <- column_text t ;;
     new_drink <- insert t' r ;;
     s <- short new_drink ;;
     ret (jsonify [("success", JBool true); ("drinks", JArr [s])]))
    (fun e => logging_exception e ;;; abort 400).

(** PATCH /drinks/<id> (lines 132-167) *)
Definition patch_drink (payload : json) (drink_id : Z) (req : Request)
    : M Response :=
  data <- get_json req ;;
  rows <- query_filter (fun d => Z.eqb (id d) drink_id) ;;
  drink <- one_or_none rows ;;
  match drink with
  | None => abort 404
  | Some drink =>
      check_drink_attribute data ;;;
      try_except
        (t <- get data "title" ;;
         r <- get data "recipe" ;;
         t' <- column_text t ;;
         update (mkDrink (id drink) t' r) ;;;
         get_drinks)
        (fun _ => abort 400)
  end.

(** DELETE /drinks/<id> (lines 170-189) *)
Definition delete_drink (payload : json) (drink_id : Z) : M Response :=
  try_except
    (drink <- get_or_404 drink_id ;;
     delete drink ;;;
     ret (jsonify [("success", JBool true); ("delete", JNum drink_id)]))
    (fun e => logging_exception e ;;; abort 500).

(** The URL map with the decorators applied. *)
Definition view (r : Route) (req : Request) : M Response :=
  match r with
  | GET_drinks => get_drinks
  | GET_drinks_detail =>
      requires_auth "get:drinks-detail" req get_drinks_detail
  | POST_drinks =>
      requires_auth "post:drinks" req (fun payload => post_drink payload req)
  | PATCH_drinks drink_id =>
      requires_auth "patch:drinks" req
        (fun payload => patch_drink payload drink_id req)
  | DELETE_drinks drink_id =>
      requires_auth "delete:drinks" req
        (fun payload => delete_drink payload drink_id)
  end.

(** One request, from the URL map to the response. *)
Definition dispatch (r : Route) (req : Request) (s : Store)
    : Response * Store :=
  match view r req s with
  | (Returned resp, s') => (resp, s')
  | (Raised e, s') => (handle_exception e, s')
  end.

(** A process lifetime: requests served one after the other. *)
Fixpoint serve (reqs : list (Route * Request)) (s : Store)
    : list Response * Store :=
  match reqs with
  | [] => ([], s)
  | (r, req) :: rest =>
      let (resp, s') := dispatch r req s in
      let (resps, s'') := serve rest s' in
      (resp :: resps, s'')
  end.

End Api.

(** ** A concrete deployment for the worked examples *)

Module Fixture.

(** An identity provider with two tokens: the manager holds every
    permission, the barista only reads the details. *)
Definition manager_permissions : list string :=
  ["get:drinks-detail"; "post:drinks"; "patch:drinks"; "delete:drinks"].

Definition barista_permissions : list string := ["get:drinks-detail"].

Definition claim_set (permissions : list string) : json :=
  JObj [("sub", JStr "auth0|fixture");
        ("permissions", JArr (map JStr permissions))].

Definition auth_failure (code : Z) (name description : string) : AuthError :=
  mkAuthError [("code", JStr name); ("description", JStr description)] code.

Definition check_permissions (permission : string)
    (permissions : list string) : AuthError + json :=
  if existsb (String.eqb permission) permissions
  then inr (claim_set permissions)
  else inl (auth_failure 403 "unauthorized" "Permission not found.").

Definition check_auth (permission : string) (header : option string)
    : AuthError + json :=
  match header with
  | None =>
      inl (auth_failure 401 "authorization_header_missing"
             "Authorization header is expected.")
  | Some h =>
      if String.eqb h "Bearer manager"
      then check_permissions permission manager_permissions
      else if String.eqb h "Bearer barista"
      then check_permissions permission barista_permissions
      else inl (auth_failure 401 "invalid_header"
                  "Unable to parse authentication token.")
  end.

(** A table whose title column is declared unique: the store compares
    titles exactly. *)
Definition title_taken (rows : Store) (d : Drink) : bool :=
  existsb (fun x => String.eqb (title x) (title d)) rows.

Definition dispatch := dispatch check_auth title_taken.
Definition serve := serve check_auth title_taken.

Definition as_manager (data : json) : Request :=
  mkRequest (Some "Bearer manager") (Document data).

Definition anonymous (data : json) : Request :=
  mkRequest None (Document data).

Definition ingredient (name color : string) (parts : Z) : json :=
  JObj [("name", JStr name); ("color", JStr color); ("parts", JNum parts)].

Definition drink_payload (t : string) (entries : list json) : json :=
  JObj [("title", JStr t); ("recipe", JArr entries)].

Definition water : json := drink_payload "Water" [ingredient "water" "blue" 1].
Definition tea : json := drink_payload "Tea" [ingredient "tea" "green" 1].

(** A table with one row. *)
Definition menu : Store :=
  [mkDrink 1 "Water" (JArr [ingredient "water" "blue" 1])].

(** A recipe whose first entry is a number and whose second entry is an
    object without name and parts. *)
Definition mocha_malformed : json :=
  drink_payload "Mocha" [JNum 1; JObj [("color", JStr "brown")]].

(** The title of a stored drink in another case, with a number as the only
    recipe entry. *)
Definition water_malformed : json := drink_payload "water" [JNum 1].

(** A table with two rows. *)
Definition two_drinks : Store :=
  [mkDrink 1 "Water" (JArr [ingredient "water" "blue" 1]);
   mkDrink 2 "Tea" (JArr [ingredient "tea" "green" 1])].

Definition chai : json := drink_payload "Chai" [ingredient "chai" "amber" 2].

(** A table that holds titles of at most five characters. *)
Definition title_too_long (rows : Store) (d : Drink) : bool :=
  Nat.ltb 5 (String.length (title d)).

(** A payload without recipe, and one with a long title. *)
Definition mocha_no_recipe : json := JObj [("title", JStr "Mocha")].

Definition cappuccino : json :=
  drink_payload "Cappuccino" [ingredient "milk" "white" 1].

Definition as_barista (data : json) : Request :=
  mkRequest (Some "Bearer barista") (Document data).

(** A request of the manager whose body is declared as JSON and does not
    parse. *)
Definition malformed_as_manager : Request :=
  mkRequest (Some "Bearer manager") Malformed.

(** A recipe entry with zero parts. *)
Definition latte_zero_parts : json :=
  drink_payload "Latte" [ingredient "milk" "white" 0].

(** Two creations, then an update that retitles the second drink to the
    first one's title in another case. *)
Definition retitle_history : list (Route * Request) :=
  [(POST_drinks, as_manager water);
   (POST_drinks, as_manager tea);
   (PATCH_drinks 2,
    as_manager (drink_payload "water" [ingredient "tea" "green" 1]))].

End Fixture.

(** ** Properties stated on tables and bodies *)

(** The value of a key in a JSON response body. *)
Definition body_field (resp : Response) (k : string) : option json :=
  match body resp with
  | Json (JObj fields) => assoc k fields
  | _ => None
  end.

(** The uniform error envelope: [{success: false, error: <status>,
    message: <string>}]. *)
Definition error_envelope (resp : Response) : Prop :=
  body_field resp "success" = Some (JBool false) /\
  body_field resp "error" = Some (JNum (status resp)) /\
  exists m, body_field resp "message" = Some (JStr m).

Definition has_error_code (resp : Response) : Prop :=
  exists c, body_field resp "error_code" = Some (JStr c).

(** An [AuthError] that carries its code and description as strings. *)
Definition auth_error_described (a : AuthError) : Prop :=
  (exists c, assoc "code" (error a) = Some (JStr c)) /\
  (exists m, assoc "description" (error a) = Some (JStr m)).

(** No row with that primary key. *)
Definition absent (ident : Z) (s : Store) : Prop :=
  forall d, In d s -> id d <> ident.

(** Primary keys identify rows. *)
Definition primary_keys (s : Store) : Prop := NoDup (map id s).

(** Titles are unique up to case. *)
Definition titles_unique (s : Store) : Prop :=
  NoDup (map (fun d => lower (title d)) s).

(** A recipe entry whose parts are the number 0. *)
Definition zero_parts (r : json) : Prop :=
  exists fields, r = JObj fields /\ assoc "parts" fields = Some (JNum 0).

(** What [check_drink_attribute] asks of an object payload whose recipe
    entries are objects. *)
Definition entry_ok (r : json) : bool :=
  match r with
  | JObj f =>
      truthy (dict_get f "name") && truthy (dict_get f "parts")
      && truthy (dict_get f "color")
  | _ => false
  end.

Definition attributes_ok (fields : list (string * json)) : bool :=
  truthy (dict_get fields "title")
  && match dict_get fields "recipe" with
     | JArr (e :: es) => forallb entry_ok (e :: es)
     | _ => false
     end.

(** A computation that leaves the table alone, whatever it returns. *)
Definition reads_only {A} (m : M A) : Prop :=
  forall s, snd (m s) = s.

(** A computation whose exceptions all satisfy [P]. *)
Definition only_raises {A} (P : exn -> Prop) (m : M A) : Prop :=
  forall s e s', m s = (Raised e, s') -> P e.

(** The exceptions a view body lets escape: HTTP errors with one of the
    codes the views abort with, and Python or data-layer errors; never an
    [AuthError]. *)
Definition from_view (e : exn) : Prop :=
  match e with
  | HTTPException code =>
      code = 400 \/ code = 404 \/ code = 422 \/ code = 500
  | Unauthorized _ => False
  | _ => True
  end.

(** The permission that the decorator of a route asks for; GET /drinks has
    no decorator. *)
Definition required_permission (r : Route) : option string :=
  match r with
  | GET_drinks => None
  | GET_drinks_detail => Some "get:drinks-detail"
  | POST_drinks => Some "post:drinks"
  | PATCH_drinks _ => Some "patch:drinks"
  | DELETE_drinks _ => Some "delete:drinks"
  end.

(** The two forms of a row as values: what [short] and [long] return on a
    row whose recipe is a list of objects that have color and parts. *)
Definition short_entry_of (r : json) : json :=
  match r with
  | JObj f => JObj [("color", dict_get f "color"); ("parts", dict_get f "parts")]
  | _ => JNull
  end.

Definition short_of (d : Drink) : json :=
  JObj [("id", JNum (id d)); ("title", JStr (title d));
        ("recipe",
         JArr (match recipe d with
               | JArr entries => map short_entry_of entries
               | _ => []
               end))].

Definition long_of (d : Drink) : json :=
  JObj [("id", JNum (id d)); ("title", JStr (title d));
        ("recipe", recipe d)].

(** A row as the attribute check lets it in: a title that is not empty and
    a recipe that is a non-empty list of objects with truthy name, parts and
    color. *)
Definition row_ok (d : Drink) : bool :=
  negb (String.eqb (title d) "")
  && match recipe d with
     | JArr (e :: es) => forallb entry_ok (e :: es)
     | _ => false
     end.

Definition rows_ok (s : Store) : Prop :=
  Forall (fun d => row_ok d = true) s.

(** The row that a PATCH of [d] to title [t] and recipe [rcp] leaves in the
    table. *)
Definition rewrite_row (d : Drink) (t : string) (rcp : json) (s : Store)
    : Store :=
  map (fun x => if Z.eqb (id x) (id d) then mkDrink (id d) t rcp else x) s.

(** The codes an answer may have: an exception is answered with one of
    [codes] or, when it is no HTTP error, with 500. *)
Definition aborts_with (codes : list Z) (e : exn) : Prop :=
  match e with
  | HTTPException code => In code codes
  | Unauthorized _ => False
  | _ => True
  end.

(** The codes, besides 200, that a route answers with once the request is
    past the authorization check. *)
Definition failure_codes (r : Route) : list Z :=
  match r with
  | GET_drinks | GET_drinks_detail | DELETE_drinks _ => [500]
  | POST_drinks => [422; 400; 500]
  | PATCH_drinks _ => [404; 422; 400; 500]
  end.

(** ** Response headers (api.py, lines 29-42) *)

Definition Headers : Type := list (string * string).

(** [headers.add(key, value)] appends; a header of the same name stays. *)
Definition headers_add (h : Headers) (key value : string) : Headers :=
  (h ++ [(key, value)])%list.

(** All values a header has. *)
Definition header_values (h : Headers) (key : string) : list string :=
  map snd (filter (fun kv => String.eqb (fst kv) key) h).

(** A response on its way out: what the view or the error handler answered
    and the headers it carries. *)
Record Served : Type := mkServed
  { answer : Response;
    headers : Headers }.

Definition after_request (response : Served) : Served :=
  mkServed (answer response)
    (headers_add
       (headers_add (headers response)
          "Access-Control-Allow-Headers" "Content-Type, Authorization")
       "Access-Control-Allow-Methods" "GET, POST, PATCH, DELETE, OPTIONS").

(** The header an answer has before the hook: [jsonify] declares JSON, the
    framework's error page HTML. *)
Definition content_type (resp : Response) : Headers :=
  match body resp with
  | Json _ => [("Content-Type", "application/json")]
  | Html => [("Content-Type", "text/html")]
  end.

(** One request with the [after_request] hook applied to whatever is
    answered, by a view or by an error handler. *)
Definition full_dispatch
    (auth : string -> option string -> AuthError + json)
    (refuses : Store -> Drink -> bool)
    (r : Route) (req : Request) (s : Store) : Served * Store :=
  let (resp, s') := dispatch auth refuses r req s in
  (after_request (mkServed resp (content_type resp)), s').

(** ** The monad: equations and the two logics *)

Lemma bind_returned {A B} (m : M A) (k : A -> M B) s a s' :
  m s = (Returned a, s') -> bind m k s = k a s'.
Proof. intros E. unfold bind. now rewrite E. Qed.

Lemma bind_raised {A B} (m : M A) (k : A -> M B) s e s' :
  m s = (Raised e, s') -> bind m k s = (Raised e, s').
Proof. intros E. unfold bind. now rewrite E. Qed.

Lemma bind_ret_l {A B} (a : A) (k : A -> M B) : bind (ret a) k = k a.
Proof. reflexivity. Qed.

Lemma bind_raise_l {A B} e (k : A -> M B) : bind (raise e) k = raise e.
Proof. reflexivity. Qed.

Lemma bind_abort_l {A B} code (k : A -> M B) : bind (abort code) k = abort code.
Proof. reflexivity. Qed.

(** [request.get_json()] returns the document of a body that parses and
    aborts with 400 on one that does not. *)
Lemma get_json_document req data :
  content req = Document data -> get_json req = ret data.
Proof. intros H. unfold get_json. now rewrite H. Qed.

Lemma get_json_malformed req :
  content req = Malformed -> get_json req = abort 400.
Proof. intros H. unfold get_json. now rewrite H. Qed.

(** Case analysis on the body at the head of a view. *)
Ltac read_body req H data :=
  let Hc := fresh "Hc" in
  destruct (content req) as [data |] eqn:Hc;
  [rewrite (get_json_document _ _ Hc), bind_ret_l in H; cbv beta in H
  | rewrite (get_json_malformed _ Hc), bind_abort_l in H;
    cbv [abort raise] in H].

Lemma reads_only_get_json req : reads_only (get_json req).
Proof. unfold get_json. destruct (content req); intros st; reflexivity. Qed.

Lemma reads_only_ret {A} (a : A) : reads_only (ret a).
Proof. now intros s. Qed.

Lemma reads_only_raise {A} e : reads_only (@raise A e).
Proof. now intros s. Qed.

Lemma reads_only_bind {A B} (m : M A) (k : A -> M B) :
  reads_only m -> (forall a, reads_only (k a)) -> reads_only (bind m k).
Proof.
  intros Hm Hk s. unfold bind. specialize (Hm s).
  destruct (m s) as [[a | e] s1]; simpl in Hm; subst s1.
  - apply Hk.
  - reflexivity.
Qed.

Lemma reads_only_get v k : reads_only (get v k).
Proof. destruct v; intros st; reflexivity. Qed.

Lemma reads_only_iter v : reads_only (iter v).
Proof. destruct v; intros st; reflexivity. Qed.

Lemma reads_only_por a b : reads_only a -> reads_only b -> reads_only (por a b).
Proof.
  intros Ha Hb. apply reads_only_bind; [exact Ha |].
  intros [|]; [apply reads_only_ret | exact Hb].
Qed.

Lemma reads_only_when c m : reads_only m -> reads_only (when c m).
Proof. destruct c; simpl; [trivial | intros _; apply reads_only_ret]. Qed.

Lemma reads_only_for_each {A} (l : list A) body :
  (forall x, reads_only (body x)) -> reads_only (for_each l body).
Proof.
  intros Hb. induction l as [| x l IH]; simpl.
  - apply reads_only_ret.
  - apply reads_only_bind; [apply Hb | intros _; exact IH].
Qed.

Create HintDb reads discriminated.
#[local] Hint Resolve reads_only_ret reads_only_raise reads_only_get
  reads_only_iter reads_only_por reads_only_when reads_only_for_each : reads.
#[local] Hint Extern 2 (reads_only (bind _ _)) =>
  apply reads_only_bind; [| intro] : reads.
#[local] Hint Extern 1 (reads_only (abort _)) => apply reads_only_raise : reads.

Lemma recipe_entry_bad_reads_only r : reads_only (recipe_entry_bad r).
Proof. unfold recipe_entry_bad. auto 10 with reads. Qed.

(** Validation never writes: whatever [check_drink_attribute] answers, the
    table is the one it was called on. *)
Lemma check_drink_attribute_reads_only data :
  reads_only (check_drink_attribute data).
Proof.
  unfold check_drink_attribute.
  pose proof recipe_entry_bad_reads_only.
  auto 12 with reads.
Qed.

Lemma only_raises_ret {A} P (a : A) : only_raises P (ret a).
Proof. intros s e s' E. discriminate E. Qed.

Lemma only_raises_raise {A} (P : exn -> Prop) e :
  P e -> only_raises P (@raise A e).
Proof. intros He s e' s' E. inversion E. now subst. Qed.

Lemma only_raises_bind {A B} P (m : M A) (k : A -> M B) :
  only_raises P m -> (forall a, only_raises P (k a)) ->
  only_raises P (bind m k).
Proof.
  intros Hm Hk s e s' E. unfold bind in E.
  destruct (m s) as [[a | e1] s1] eqn:Em.
  - eapply Hk; eassumption.
  - inversion E; subst. eapply Hm; eassumption.
Qed.

Lemma only_raises_try_except {A} P (m : M A) h :
  (forall e, only_raises P (h e)) -> only_raises P (try_except m h).
Proof.
  intros Hh s e s' E. unfold try_except in E.
  destruct (m s) as [[a | e1] s1] eqn:Em.
  - discriminate E.
  - eapply Hh; eassumption.
Qed.

Lemma only_raises_get v k : only_raises from_view (get v k).
Proof.
  destruct v; simpl; try (apply only_raises_raise; exact I).
  apply only_raises_ret.
Qed.

Lemma only_raises_iter v : only_raises from_view (iter v).
Proof.
  destruct v; simpl; try (apply only_raises_raise; exact I).
  apply only_raises_ret.
Qed.

Lemma only_raises_por P a b :
  only_raises P a -> only_raises P b -> only_raises P (por a b).
Proof.
  intros Ha Hb. apply only_raises_bind; [exact Ha |].
  intros [|]; [apply only_raises_ret | exact Hb].
Qed.

Lemma only_raises_when P c m : only_raises P m -> only_raises P (when c m).
Proof. destruct c; simpl; [trivial | intros _; apply only_raises_ret]. Qed.

Lemma only_raises_for_each {A} P (l : list A) body :
  (forall x, only_raises P (body x)) -> only_raises P (for_each l body).
Proof.
  intros Hb. induction l as [| x l IH]; simpl.
  - apply only_raises_ret.
  - apply only_raises_bind; [apply Hb | intros _; exact IH].
Qed.

Lemma only_raises_abort {A} code :
  code = 400 \/ code = 404 \/ code = 422 \/ code = 500 ->
  only_raises from_view (@abort A code).
Proof. intros H. apply only_raises_raise. exact H. Qed.

Create HintDb raises discriminated.
#[local] Hint Resolve only_raises_ret only_raises_get only_raises_iter
  only_raises_por only_raises_when only_raises_for_each : raises.
#[local] Hint Extern 2 (only_raises _ (bind _ _)) =>
  apply only_raises_bind; [| intro] : raises.
#[local] Hint Extern 2 (only_raises _ (try_except _ _)) =>
  apply only_raises_try_except; intro : raises.
#[local] Hint Extern 1 (only_raises from_view (abort _)) =>
  apply only_raises_abort; lia : raises.
#[local] Hint Extern 1 (only_raises from_view (raise _)) =>
  apply only_raises_raise; exact I : raises.

Lemma check_drink_attribute_raises data :
  only_raises from_view (check_drink_attribute data).
Proof.
  unfold check_drink_attribute, recipe_entry_bad.
  auto 20 with raises.
Qed.

(** ** [check_drink_attribute] on object payloads *)

Lemma recipe_entry_bad_object f s :
  recipe_entry_bad (JObj f) s = (Returned (negb (entry_ok (JObj f))), s).
Proof.
  unfold recipe_entry_bad, por, bind, get, ret, entry_ok.
  destruct (truthy (dict_get f "name")); simpl; [| reflexivity].
  destruct (truthy (dict_get f "parts")); simpl; [| reflexivity].
  destruct (truthy (dict_get f "color")); reflexivity.
Qed.

Lemma check_entries_objects entries s :
  Forall (fun r => is_dict r = true) entries ->
  for_each entries
    (fun r => bad <- recipe_entry_bad r ;; when bad (abort 422)) s
  = (if forallb entry_ok entries
     then Returned tt else Raised (HTTPException 422), s).
Proof.
  intros H. induction H as [| r entries Hr _ IH]; [reflexivity |].
  destruct r as [ | | | | | f]; try discriminate Hr.
  cbn [for_each forallb].
  unfold bind at 1. unfold bind at 1. rewrite recipe_entry_bad_object.
  destruct (entry_ok (JObj f)); simpl; [exact IH | reflexivity].
Qed.

(** On an object payload whose recipe entries are objects the check is the
    boolean [attributes_ok]: it returns, or aborts with 422. *)
Lemma check_drink_attribute_object fields s :
  (forall entries, dict_get fields "recipe" = JArr entries ->
                   Forall (fun r => is_dict r = true) entries) ->
  check_drink_attribute (JObj fields) s
  = (if attributes_ok fields
     then Returned tt else Raised (HTTPException 422), s).
Proof.
  intros Hobj. unfold check_drink_attribute, attributes_ok.
  unfold por, bind at 1 2 3 4 5 6 7, get, ret.
  destruct (truthy (dict_get fields "title")); simpl; [| reflexivity].
  destruct (dict_get fields "recipe") as [ | b | n | t | items | f] eqn:R;
    simpl; try reflexivity.
  - destruct b; reflexivity.
  - destruct (Z.eqb n 0); reflexivity.
  - destruct (String.eqb t ""); reflexivity.
  - destruct items as [| e es]; [reflexivity |].
    simpl negb. cbn iota. unfold when at 1, bind at 1 2, iter.
    cbn beta iota.
    apply check_entries_objects. now apply Hobj.
  - destruct f; reflexivity.
Qed.

(** ** Reading the table *)

Lemma reads_only_getitem v k : reads_only (getitem v k).
Proof.
  destruct v; intros st; try reflexivity.
  simpl. destruct (assoc k fields); reflexivity.
Qed.

Lemma reads_only_map_m {A B} (f : A -> M B) l :
  (forall x, reads_only (f x)) -> reads_only (map_m f l).
Proof.
  intros Hf. induction l as [| x l IH]; simpl.
  - apply reads_only_ret.
  - apply reads_only_bind; [apply Hf | intros y].
    apply reads_only_bind; [exact IH | intros ys; apply reads_only_ret].
Qed.

#[local] Hint Resolve reads_only_getitem reads_only_map_m : reads.

Lemma reads_only_short d : reads_only (short d).
Proof. unfold short, short_entry. auto 12 with reads. Qed.

Lemma reads_only_long d : reads_only (long d).
Proof. apply reads_only_ret. Qed.

Lemma reads_only_result {A} (m : M A) s r s' :
  reads_only m -> m s = (r, s') -> s' = s.
Proof. intros H E. specialize (H s). rewrite E in H. exact H. Qed.

(** GET /drinks answers the short forms of all rows under the key
    ["sucess"], or aborts with 500; it never writes. *)
Lemma get_drinks_cases s :
  (exists shorts,
      map_m short s s = (Returned shorts, s) /\
      get_drinks s
      = (Returned (jsonify [("sucess", JBool true); ("drinks", JArr shorts)]),
         s))
  \/ get_drinks s = (Raised (HTTPException 500), s).
Proof.
  unfold get_drinks, try_except, bind, query_all.
  destruct (map_m short s s) as [[shorts | e] s1] eqn:E;
    assert (s1 = s)
      by (apply (fun H => reads_only_result _ _ _ _ H E),
          reads_only_map_m, reads_only_short);
    subst s1.
  - left. exists shorts. split; reflexivity.
  - right. reflexivity.
Qed.

Lemma get_drinks_detail_cases payload s :
  (exists longs,
      map_m long s s = (Returned longs, s) /\
      get_drinks_detail payload s
      = (Returned (jsonify [("sucess", JBool true); ("drinks", JArr longs)]),
         s))
  \/ get_drinks_detail payload s = (Raised (HTTPException 500), s).
Proof.
  unfold get_drinks_detail, try_except, bind, query_all.
  destruct (map_m long s s) as [[longs | e] s1] eqn:E;
    assert (s1 = s)
      by (apply (fun H => reads_only_result _ _ _ _ H E),
          reads_only_map_m, reads_only_long);
    subst s1.
  - left. exists longs. split; reflexivity.
  - right. reflexivity.
Qed.

Lemma filter_absent ident s :
  absent ident s -> filter (fun d => Z.eqb (id d) ident) s = [].
Proof.
  intros H. induction s as [| d s IH]; [reflexivity |].
  simpl. destruct (Z.eqb_spec (id d) ident) as [E | _].
  - exfalso. exact (H d (or_introl eq_refl) E).
  - apply IH. intros x Hx. apply H. now right.
Qed.

Lemma find_absent ident s :
  absent ident s -> find (fun d => Z.eqb (id d) ident) s = None.
Proof.
  intros H. induction s as [| d s IH]; [reflexivity |].
  simpl. destruct (Z.eqb_spec (id d) ident) as [E | _].
  - exfalso. exact (H d (or_introl eq_refl) E).
  - apply IH. intros x Hx. apply H. now right.
Qed.

(** [get_or_404] raises inside the [try] of [delete_drink]; the [except
    Exception] clause catches the 404 and aborts with 500. *)
Lemma delete_drink_absent payload drink_id s :
  absent drink_id s ->
  delete_drink payload drink_id s = (Raised (HTTPException 500), s).
Proof.
  intros H. unfold delete_drink, try_except, bind, get_or_404.
  rewrite (find_absent _ _ H). reflexivity.
Qed.

(** ** Inverting a computation that returned *)

Lemma bind_returned_inv {A B} (m : M A) (k : A -> M B) s b s' :
  bind m k s = (Returned b, s') ->
  exists a s1, m s = (Returned a, s1) /\ k a s1 = (Returned b, s').
Proof.
  unfold bind. destruct (m s) as [[a | e] s1]; intros E.
  - exists a, s1. split; [reflexivity | exact E].
  - discriminate E.
Qed.

Lemma try_except_returned_inv {A} (m : M A) h s a s' :
  try_except m h s = (Returned a, s') ->
  m s = (Returned a, s')
  \/ exists e s1, m s = (Raised e, s1) /\ h e s1 = (Returned a, s').
Proof.
  unfold try_except. destruct (m s) as [[a1 | e] s1]; intros E.
  - left. exact E.
  - right. exists e, s1. split; [reflexivity | exact E].
Qed.

Lemma log_and_abort_raises {A} e code s :
  (logging_exception e ;;; @abort A code) s = (Raised (HTTPException code), s).
Proof. reflexivity. Qed.

(** Peel the binds of a computation known to have returned. *)
Ltac returned H :=
  repeat match type of H with
    | bind _ _ _ = (Returned _, _) =>
        let a := fresh "ra" in
        let st := fresh "st" in
        let E := fresh "E" in
        apply bind_returned_inv in H; destruct H as (a & st & E & H)
    end.

Lemma ret_returned_inv {A} (a b : A) s s' :
  ret a s = (Returned b, s') -> b = a /\ s' = s.
Proof. intros E. inversion E. split; reflexivity. Qed.

(** POST /drinks, when it returns, answers [{success: true, drinks: [one
    short form]}]. *)
Lemma post_drink_returned refuses payload req s resp s' :
  post_drink refuses payload req s = (Returned resp, s') ->
  exists sh,
    resp = jsonify [("success", JBool true); ("drinks", JArr [sh])].
Proof.
  unfold post_drink. intros H. returned H.
  apply try_except_returned_inv in H as [H | (e & sx & _ & H)].
  - returned H. apply ret_returned_inv in H as [-> _].
    eexists. reflexivity.
  - rewrite log_and_abort_raises in H. discriminate H.
Qed.

(** PATCH /drinks/{id}, when it returns, answers what GET /drinks answers on
    the table as the update left it: the short forms of all rows under the
    key ["sucess"]. *)
Lemma patch_drink_returned refuses payload drink_id req s resp s' :
  patch_drink refuses payload drink_id req s = (Returned resp, s') ->
  exists shorts,
    map_m short s' s' = (Returned shorts, s') /\
    resp = jsonify [("sucess", JBool true); ("drinks", JArr shorts)].
Proof.
  unfold patch_drink. intros H.
  apply bind_returned_inv in H as (data & s0 & _ & H).
  apply bind_returned_inv in H as (rows & s1 & _ & H).
  apply bind_returned_inv in H as (found & s2 & _ & H).
  destruct found as [drink |]; [| discriminate H].
  apply bind_returned_inv in H as (? & s3 & _ & H).
  apply try_except_returned_inv in H as [H | (e & sx & _ & H)];
    [| discriminate H].
  returned H.
  match type of H with
  | get_drinks ?t = _ =>
      destruct (get_drinks_cases t) as [(shorts & Hs & G) | G];
      rewrite G in H; inversion H; subst
  end.
  exists shorts. split; [exact Hs | reflexivity].
Qed.

Lemma delete_drink_returned payload drink_id s resp s' :
  delete_drink payload drink_id s = (Returned resp, s') ->
  resp = jsonify [("success", JBool true); ("delete", JNum drink_id)].
Proof.
  unfold delete_drink. intros H.
  apply try_except_returned_inv in H as [H | (e & sx & _ & H)].
  - returned H. apply ret_returned_inv in H as [-> _]. reflexivity.
  - rewrite log_and_abort_raises in H. discriminate H.
Qed.

(** ** What the views raise *)

Lemma only_raises_getitem v k : only_raises from_view (getitem v k).
Proof.
  destruct v; simpl; try (apply only_raises_raise; exact I).
  destruct (assoc k fields);
    [apply only_raises_ret | apply only_raises_raise; exact I].
Qed.

Lemma only_raises_map_m {A B} P (f : A -> M B) l :
  (forall x, only_raises P (f x)) -> only_raises P (map_m f l).
Proof.
  intros Hf. induction l as [| x l IH]; simpl.
  - apply only_raises_ret.
  - apply only_raises_bind; [apply Hf | intros y].
    apply only_raises_bind; [exact IH | intros ys; apply only_raises_ret].
Qed.

Lemma only_raises_query_all P : only_raises P query_all.
Proof. intros s e s' E. discriminate E. Qed.

Lemma only_raises_query_filter P p : only_raises P (query_filter p).
Proof. intros s e s' E. discriminate E. Qed.

Lemma only_raises_one_or_none rows : only_raises from_view (one_or_none rows).
Proof.
  destruct rows as [| d [| d' rows]]; simpl;
    [apply only_raises_ret | apply only_raises_ret |].
  apply only_raises_raise. exact I.
Qed.

Lemma only_raises_column_text v : only_raises from_view (column_text v).
Proof.
  destruct v; simpl; try (apply only_raises_raise; exact I).
  apply only_raises_ret.
Qed.

Lemma only_raises_insert refuses t r :
  only_raises from_view (insert refuses t r).
Proof.
  intros s e s' E. unfold insert in E.
  destruct (refuses s _); inversion E. exact I.
Qed.

Lemma only_raises_update refuses d : only_raises from_view (update refuses d).
Proof.
  intros s e s' E. unfold update in E.
  destruct (refuses _ d); inversion E. exact I.
Qed.

Lemma only_raises_get_json req : only_raises from_view (get_json req).
Proof.
  unfold get_json. destruct (content req);
    [apply only_raises_ret | apply only_raises_abort; now left].
Qed.

#[local] Hint Resolve only_raises_get_json : raises.

#[local] Hint Resolve only_raises_getitem only_raises_map_m
  only_raises_query_all only_raises_query_filter only_raises_one_or_none
  only_raises_column_text only_raises_insert only_raises_update
  check_drink_attribute_raises : raises.

Lemma only_raises_short d : only_raises from_view (short d).
Proof. unfold short, short_entry. auto 12 with raises. Qed.

#[local] Hint Resolve only_raises_short : raises.

Lemma get_drinks_raises : only_raises from_view get_drinks.
Proof. unfold get_drinks, logging_exception. auto 8 with raises. Qed.

Lemma get_drinks_detail_raises payload :
  only_raises from_view (get_drinks_detail payload).
Proof. unfold get_drinks_detail, logging_exception. auto 8 with raises. Qed.

Lemma post_drink_raises refuses payload req :
  only_raises from_view (post_drink refuses payload req).
Proof. unfold post_drink, logging_exception. auto 20 with raises. Qed.

Lemma patch_drink_raises refuses payload drink_id req :
  only_raises from_view (patch_drink refuses payload drink_id req).
Proof.
  unfold patch_drink.
  apply only_raises_bind; [auto with raises | intros data].
  apply only_raises_bind; [auto with raises | intros rows].
  apply only_raises_bind; [auto with raises | intros [drink |]].
  - auto 8 with raises.
  - auto with raises.
Qed.

Lemma delete_drink_raises payload drink_id :
  only_raises from_view (delete_drink payload drink_id).
Proof. unfold delete_drink, logging_exception. auto 8 with raises. Qed.

(** An exception that leaves a view body is answered with the uniform
    envelope. *)
Lemma from_view_envelope e :
  from_view e ->
  error_envelope (handle_exception e)
  /\ forall a, e <> Unauthorized a.
Proof.
  intros H. split; [| intros a ->; exact H].
  destruct e; simpl in H; try contradiction;
    try (repeat split; eexists; reflexivity).
  destruct H as [-> | [-> | [-> | ->]]];
    repeat split; eexists; reflexivity.
Qed.

Lemma errorhandler_envelope code resp :
  errorhandler code = Some resp -> status resp = code /\ error_envelope resp.
Proof.
  unfold errorhandler. intros H.
  repeat match type of H with
    | (if Z.eqb ?c ?k then _ else _) = _ =>
        destruct (Z.eqb_spec c k);
        [inversion H; subst;
         split; [reflexivity | repeat split; eexists; reflexivity] |]
    end.
  discriminate H.
Qed.

Lemma auth_error_envelope a :
  auth_error_described a ->
  status (auth_error a) = status_code a
  /\ error_envelope (auth_error a) /\ has_error_code (auth_error a).
Proof.
  intros [[c Hc] [m Hm]].
  unfold error_envelope, has_error_code, body_field, auth_error, dict_get.
  simpl. rewrite Hc, Hm. repeat split; eexists; reflexivity.
Qed.

(** ** What the views write *)

(** POST leaves the table as it was or appends one row, with a fresh key
    and a title that matched no stored title up to case.  The row stays
    when [short] raises after the insert and the answer is 400. *)
Lemma post_drink_store refuses payload req s r s' :
  post_drink refuses payload req s = (r, s') ->
  s' = s
  \/ exists t rcp,
      filter (fun d => String.eqb (lower (title d)) (lower t)) s = []
      /\ s' = (s ++ [mkDrink (next_id s) t rcp])%list.
Proof.
  unfold post_drink. intros H.
  read_body req H data; [| left; now inversion H].
  destruct (check_drink_attribute data s) as [[u | e] s1] eqn:C;
    pose proof (reads_only_result _ _ _ _
                  (check_drink_attribute_reads_only _) C) as ->.
  2: { left. rewrite (bind_raised _ _ _ _ _ C) in H. now inversion H. }
  rewrite (bind_returned _ _ _ _ _ C) in H. clear C.
  destruct data as [ | | | | | fields];
    try (left; now inversion H).
  cbn [get] in H. unfold bind at 1 in H. cbn [ret] in H.
  destruct (dict_get fields "title") as [ | | | t | | ];
    try (left; now inversion H).
  cbn [column_text] in H. unfold bind at 1 in H. cbn [ret] in H.
  unfold bind at 1 in H. unfold query_filter in H.
  destruct (filter (fun d => String.eqb (lower (title d)) (lower t)) s)
    as [| d [| d' rows]] eqn:F;
    try (left; now inversion H).
  unfold bind at 1 2 in H. cbn [one_or_none ret when] in H.
  cbv beta iota zeta
      delta [try_except bind ret column_text insert logging_exception
             abort raise] in H.
  destruct (refuses s _).
  - left. now inversion H.
  - right. exists t, (dict_get fields "recipe"). split; [exact F |].
    match type of H with
    | context [short ?d ?st] =>
        destruct (short d st) as [[sh | e] s2] eqn:Sh;
        pose proof (reads_only_result _ _ _ _ (reads_only_short _) Sh) as ->
    end; now inversion H.
Qed.

(** PATCH leaves the table as it was or rewrites title and recipe of the
    rows with the key of the row it found. *)
Lemma patch_drink_store refuses payload drink_id req s r s' :
  patch_drink refuses payload drink_id req s = (r, s') ->
  s' = s
  \/ exists d t rcp,
      In d s
      /\ s' = map (fun x => if Z.eqb (id x) (id d)
                            then mkDrink (id d) t rcp else x) s.
Proof.
  unfold patch_drink. intros H.
  read_body req H data; [| left; now inversion H].
  unfold bind at 1 2 in H. unfold query_filter in H.
  destruct (filter (fun d => Z.eqb (id d) drink_id) s)
    as [| d [| d' rows]] eqn:F;
    try (left; now inversion H).
  cbn [one_or_none ret] in H.
  assert (Hin : In d s).
  { apply (proj1 (filter_In (fun d => Z.eqb (id d) drink_id) d s)).
    rewrite F. now left. }
  destruct (check_drink_attribute data s) as [[u | e] s1] eqn:C;
    pose proof (reads_only_result _ _ _ _
                  (check_drink_attribute_reads_only _) C) as ->.
  2: { left. rewrite (bind_raised _ _ _ _ _ C) in H. now inversion H. }
  rewrite (bind_returned _ _ _ _ _ C) in H. clear C.
  destruct data as [ | | | | | fields];
    try (left; now inversion H).
  cbn [get] in H.
  destruct (dict_get fields "title") as [ | | | t | | ];
    try (left; now inversion H).
  cbv beta iota zeta
      delta [try_except bind ret column_text update abort raise] in H.
  cbn [id] in H.
  destruct (refuses _ _).
  - left. now inversion H.
  - right. exists d, t, (dict_get fields "recipe"). split; [exact Hin |].
    match type of H with
    | context [get_drinks ?st] =>
        destruct (get_drinks_cases st) as [(shorts & _ & G) | G];
        rewrite G in H
    end; now inversion H.
Qed.

(** DELETE leaves the table as it was or removes the rows with one key. *)
Lemma delete_drink_store payload drink_id s r s' :
  delete_drink payload drink_id s = (r, s') ->
  s' = s
  \/ exists d, s' = filter (fun x => negb (Z.eqb (id x) (id d))) s.
Proof.
  unfold delete_drink. intros H.
  cbv beta iota zeta
      delta [try_except bind ret get_or_404 delete logging_exception
             abort raise] in H.
  destruct (find _ s) as [d |].
  - right. exists d. now inversion H.
  - left. now inversion H.
Qed.

(** A generated key is above every key in use. *)
Lemma next_id_above s d : In d s -> id d < next_id s.
Proof.
  unfold next_id. induction s as [| x s IH]; intros Hin; [destruct Hin |].
  cbn [map fold_right]. destruct Hin as [-> | Hin].
  - lia.
  - specialize (IH Hin). lia.
Qed.

Lemma primary_keys_insert s t rcp :
  primary_keys s -> primary_keys (s ++ [mkDrink (next_id s) t rcp])%list.
Proof.
  unfold primary_keys. intros Hk. rewrite map_app. simpl.
  apply NoDup_app; [exact Hk | repeat constructor; intros [] |].
  intros k Hin [<- | []].
  apply in_map_iff in Hin as (d & E & Hd).
  apply next_id_above in Hd. simpl in E. lia.
Qed.

Lemma map_id_update d t rcp s :
  map id (map (fun x => if Z.eqb (id x) (id d)
                        then mkDrink (id d) t rcp else x) s)
  = map id s.
Proof.
  rewrite map_map. apply map_ext. intros x.
  destruct (Z.eqb_spec (id x) (id d)) as [E | _]; [now rewrite E |].
  reflexivity.
Qed.

Lemma nodup_map_filter {A B} (f : A -> B) p l :
  NoDup (map f l) -> NoDup (map f (filter p l)).
Proof.
  induction l as [| x l IH]; intros Hk; [exact Hk |].
  simpl in Hk. inversion Hk as [| ? ? Hx Hs]; subst.
  simpl. destruct (p x); [| now apply IH].
  simpl. constructor; [| now apply IH].
  intros Hin. apply Hx.
  apply in_map_iff in Hin as (d & E & Hd).
  apply filter_In in Hd as [Hd _]. rewrite <- E. now apply in_map.
Qed.

Lemma filter_none {A} (p : A -> bool) l :
  (forall y, In y l -> p y = false) -> filter p l = [].
Proof.
  induction l as [| x l IH]; intros H; [reflexivity |].
  simpl. rewrite (H x (or_introl eq_refl)).
  apply IH. intros y Hy. apply H. now right.
Qed.

(** With titles unique up to case the title query of POST finds the row
    alone. *)
Lemma filter_same_title d s :
  titles_unique s -> In d s ->
  filter (fun x => String.eqb (lower (title x)) (lower (title d))) s = [d].
Proof.
  unfold titles_unique. induction s as [| x s IH]; intros Hk Hin.
  - destruct Hin.
  - simpl in Hk. inversion Hk as [| ? ? Hx Hs]; subst.
    assert (Hrest : forall y, In y s ->
                      lower (title y) <> lower (title x)).
    { intros y Hy E. apply Hx. rewrite <- E.
      now apply (in_map (fun d => lower (title d))). }
    destruct Hin as [-> | Hin]; simpl.
    + rewrite String.eqb_refl. f_equal.
      apply filter_none. intros y Hy.
      apply String.eqb_neq. now apply Hrest.
    + destruct (String.eqb_spec (lower (title x)) (lower (title d)))
        as [E | _].
      * destruct (Hrest d Hin (eq_sym E)).
      * now apply IH.
Qed.

Lemma titles_unique_insert s t rcp :
  titles_unique s ->
  filter (fun d => String.eqb (lower (title d)) (lower t)) s = [] ->
  titles_unique (s ++ [mkDrink (next_id s) t rcp])%list.
Proof.
  unfold titles_unique. intros Hu Hf. rewrite map_app. simpl.
  apply NoDup_app; [exact Hu | repeat constructor; intros [] |].
  intros k Hin [<- | []].
  apply in_map_iff in Hin as (d & E & Hd).
  assert (Hd' : In d (filter (fun d => String.eqb (lower (title d))
                                          (lower t)) s)).
  { apply filter_In. split; [exact Hd |]. now apply String.eqb_eq. }
  rewrite Hf in Hd'. destruct Hd'.
Qed.

Section Facts.

(** The two parameters of the views: the authorization check and the
    constraints of the table. *)
Variable auth : string -> option string -> AuthError + json.
Variable refuses : Store -> Drink -> bool.

(** C1, as the code has it: a DELETE /drinks/{id} that passes the
    authorization check for an id no row has is answered with the 500
    envelope, not with 404; the table is left as it was. *)
Theorem delete_unknown_id_answers_500 req claims drink_id s :
  auth "delete:drinks" (authorization req) = inr claims ->
  absent drink_id s ->
  dispatch auth refuses (DELETE_drinks drink_id) req s = (unknown, s)
  /\ status unknown = 500.
Proof.
  intros Hauth Habs. split; [| reflexivity].
  unfold dispatch, view, requires_auth.
  rewrite Hauth, (delete_drink_absent _ _ _ Habs). reflexivity.
Qed.

(** C7, amended: a PATCH /drinks/{id} that passes the authorization check,
    whose body [request.get_json()] returns (a parsed document, of any
    shape, or none), for an id within the integers of the data store that no
    row has, is answered 404 whatever the document is; the table is not
    touched and the attribute check is never reached. *)
Theorem patch_unknown_id_answers_404 req claims data drink_id s :
  auth "patch:drinks" (authorization req) = inr claims ->
  content req = Document data ->
  0 <= drink_id < 2 ^ 63 ->
  absent drink_id s ->
  dispatch auth refuses (PATCH_drinks drink_id) req s = (not_found, s)
  /\ status not_found = 404.
Proof.
  intros Hauth Hdata _ Habs. split; [| reflexivity].
  unfold dispatch, view, requires_auth.
  rewrite Hauth.
  unfold patch_drink.
  rewrite (get_json_document _ _ Hdata), bind_ret_l. cbv beta.
  unfold bind, query_filter.
  rewrite (filter_absent _ _ Habs). reflexivity.
Qed.

(** C4, as the code has it: a view that returns answers 200 with a JSON
    object, but only POST /drinks and DELETE /drinks/{id} put the key
    ["success"] in it; GET /drinks, GET /drinks-detail and PATCH
    /drinks/{id} spell the key ["sucess"] and have no key ["success"]. *)
Theorem success_key_by_route r req s resp s' :
  view auth refuses r req s = (Returned resp, s') ->
  status resp = 200
  /\ match r with
     | POST_drinks | DELETE_drinks _ =>
         body_field resp "success" = Some (JBool true)
     | GET_drinks | GET_drinks_detail | PATCH_drinks _ =>
         body_field resp "success" = None
         /\ body_field resp "sucess" = Some (JBool true)
     end.
Proof.
  unfold view, requires_auth. intros H.
  destruct r as [ | | | drink_id | drink_id].
  - destruct (get_drinks_cases s) as [(shorts & _ & G) | G];
      rewrite G in H; inversion H; subst. repeat split.
  - destruct (auth _ _) as [a | payload]; [discriminate H |].
    destruct (get_drinks_detail_cases payload s) as [(longs & _ & G) | G];
      rewrite G in H; inversion H; subst. repeat split.
  - destruct (auth _ _) as [a | payload]; [discriminate H |].
    apply post_drink_returned in H as [sh ->]. repeat split.
  - destruct (auth _ _) as [a | payload]; [discriminate H |].
    apply patch_drink_returned in H as (shorts & _ & ->). repeat split.
  - destruct (auth _ _) as [a | payload]; [discriminate H |].
    apply delete_drink_returned in H as ->. repeat split.
Qed.

(** C9: when the process starts the table is emptied, whatever was
    persisted and whatever an earlier run of the process served; the first
    request sees no drink. *)
Theorem startup_empties_table persisted reqs req :
  startup persisted = []
  /\ startup (snd (serve auth refuses reqs (startup persisted))) = []
  /\ dispatch auth refuses GET_drinks req (startup persisted)
     = (jsonify [("sucess", JBool true); ("drinks", JArr [])], []).
Proof. repeat split. Qed.

(** Whatever a route raises comes from the authorization check or from the
    view body. *)
Lemma view_raises r req s e s' :
  view auth refuses r req s = (Raised e, s') ->
  (exists permission a,
      auth permission (authorization req) = inl a /\ e = Unauthorized a)
  \/ from_view e.
Proof.
  unfold view, requires_auth. intros H.
  destruct r as [ | | | drink_id | drink_id];
    try (destruct (auth _ _) as [a | payload] eqn:Ha;
         [inversion H; subst; left; eexists; eexists; split;
          [exact Ha | reflexivity] |]);
    right.
  - eapply get_drinks_raises; exact H.
  - eapply get_drinks_detail_raises; exact H.
  - eapply post_drink_raises; exact H.
  - eapply patch_drink_raises; exact H.
  - eapply delete_drink_raises; exact H.
Qed.

(** C8: every error answer is the envelope [{success: false, error:
    <status>, message: <string>}] with [error] equal to the HTTP status:
    the registered handlers build it, the [AuthError] handler builds it
    with an [error_code] string besides, and whatever a route raises is
    answered by one of them.  The strings of the authorization variant are
    the code and the description that the [AuthError] carries. *)
Theorem error_responses_uniform :
  (forall permission header a,
      auth permission header = inl a -> auth_error_described a) ->
  (forall code resp,
      errorhandler code = Some resp ->
      status resp = code /\ error_envelope resp)
  /\ (forall permission header a,
         auth permission header = inl a ->
         status (auth_error a) = status_code a
         /\ error_envelope (auth_error a) /\ has_error_code (auth_error a))
  /\ (forall r req s e s',
         view auth refuses r req s = (Raised e, s') ->
         dispatch auth refuses r req s = (handle_exception e, s')
         /\ error_envelope (handle_exception e)
         /\ (forall a, e = Unauthorized a ->
                       has_error_code (handle_exception e))).
Proof.
  intros Hauth. split; [exact errorhandler_envelope |]. split.
  - intros permission header a Ha.
    apply auth_error_envelope. eapply Hauth; exact Ha.
  - intros r req s e s' H. split.
    + unfold dispatch. rewrite H. reflexivity.
    + destruct (view_raises _ _ _ _ _ H) as [(permission & a & Ha & ->) | Hv].
      * apply Hauth in Ha. apply auth_error_envelope in Ha as (_ & He & Hc).
        split; [exact He | intros _ _; exact Hc].
      * apply from_view_envelope in Hv as [He Hn].
        split; [exact He | intros a ->; now destruct (Hn a)].
Qed.

(** With distinct keys the lookup by primary key finds the row alone. *)
Lemma filter_primary_key d s :
  primary_keys s -> In d s ->
  filter (fun x => Z.eqb (id x) (id d)) s = [d].
Proof.
  unfold primary_keys. induction s as [| x s IH]; intros Hk Hin.
  - destruct Hin.
  - simpl in Hk. inversion Hk as [| ? ? Hx Hs]; subst.
    destruct Hin as [-> | Hin].
    + simpl. rewrite Z.eqb_refl. f_equal.
      apply filter_absent. intros y Hy E. apply Hx.
      rewrite <- E. now apply in_map.
    + simpl. destruct (Z.eqb_spec (id x) (id d)) as [E | _].
      * exfalso. apply Hx. rewrite E. now apply in_map.
      * now apply IH.
Qed.

(** The attribute check comes first in POST and right after the lookup in
    PATCH: when it raises, the view raises the same and the table is the one
    the request found. *)
Lemma post_drink_check_raises payload req data s e s' :
  content req = Document data ->
  check_drink_attribute data s = (Raised e, s') ->
  post_drink refuses payload req s = (Raised e, s).
Proof.
  intros Hdata H. unfold post_drink.
  rewrite (get_json_document _ _ Hdata), bind_ret_l. cbv beta.
  pose proof (reads_only_result _ _ _ _
                (check_drink_attribute_reads_only _) H) as ->.
  apply bind_raised. exact H.
Qed.

Lemma patch_drink_check_raises payload d req data s e s' :
  primary_keys s -> In d s ->
  content req = Document data ->
  check_drink_attribute data s = (Raised e, s') ->
  patch_drink refuses payload (id d) req s = (Raised e, s).
Proof.
  intros Hk Hin Hdata H. unfold patch_drink.
  rewrite (get_json_document _ _ Hdata), bind_ret_l. cbv beta.
  pose proof (reads_only_result _ _ _ _
                (check_drink_attribute_reads_only _) H) as ->.
  unfold bind at 1 2, query_filter. rewrite (filter_primary_key _ _ Hk Hin).
  cbn [one_or_none ret]. apply bind_raised. exact H.
Qed.

(** An object payload with object recipe entries that fails the attribute
    check is answered 422 by POST, and by PATCH on an existing id; the table
    is the one the request found. *)
Lemma invalid_attributes_rejected req claims fields s :
  content req = Document (JObj fields) ->
  (forall entries, dict_get fields "recipe" = JArr entries ->
                   Forall (fun r => is_dict r = true) entries) ->
  attributes_ok fields = false ->
  (auth "post:drinks" (authorization req) = inr claims ->
   dispatch auth refuses POST_drinks req s = (unprocessable, s))
  /\ (forall d,
         auth "patch:drinks" (authorization req) = inr claims ->
         primary_keys s -> In d s ->
         dispatch auth refuses (PATCH_drinks (id d)) req s
         = (unprocessable, s)).
Proof.
  intros Hdata Hobj Hbad.
  assert (Hcheck : check_drink_attribute (JObj fields) s
                   = (Raised (HTTPException 422), s)).
  { rewrite (check_drink_attribute_object _ _ Hobj), Hbad.
    reflexivity. }
  split.
  - intros Hauth. unfold dispatch, view, requires_auth. rewrite Hauth.
    rewrite (post_drink_check_raises _ _ _ _ _ _ Hdata Hcheck). reflexivity.
  - intros d Hauth Hk Hin. unfold dispatch, view, requires_auth.
    rewrite Hauth.
    rewrite (patch_drink_check_raises _ _ _ _ _ _ _ Hk Hin Hdata Hcheck).
    reflexivity.
Qed.

Lemma zero_parts_not_ok entries :
  Exists zero_parts entries -> forallb entry_ok entries = false.
Proof.
  induction 1 as [r entries (f & -> & Hp) | r entries _ IH]; simpl.
  - unfold dict_get. rewrite Hp. simpl.
    now rewrite andb_false_r.
  - rewrite IH. apply andb_false_r.
Qed.

(** C10, amended: a payload that is a JSON object whose recipe is a list of
    JSON objects, one of them with parts equal to 0, is rejected with 422 by
    POST /drinks and by PATCH /drinks/{id} when a row has that id; the
    request has passed the authorization check, and the table is left as it
    was. *)
Theorem zero_parts_rejected req claims fields entries s :
  content req = Document (JObj fields) ->
  assoc "recipe" fields = Some (JArr entries) ->
  Forall (fun r => is_dict r = true) entries ->
  Exists zero_parts entries ->
  (auth "post:drinks" (authorization req) = inr claims ->
   dispatch auth refuses POST_drinks req s = (unprocessable, s))
  /\ (forall d,
         auth "patch:drinks" (authorization req) = inr claims ->
         primary_keys s -> In d s ->
         dispatch auth refuses (PATCH_drinks (id d)) req s
         = (unprocessable, s))
  /\ status unprocessable = 422.
Proof.
  intros Hdata Hrecipe Hobj Hzero.
  destruct (invalid_attributes_rejected req claims fields s Hdata)
    as [Hpost Hpatch].
  - unfold dict_get. rewrite Hrecipe. intros ? [= <-]. exact Hobj.
  - unfold attributes_ok, dict_get. rewrite Hrecipe.
    destruct entries as [| e es]; [inversion Hzero |].
    rewrite (zero_parts_not_ok _ Hzero). apply andb_false_r.
  - split; [exact Hpost | split; [exact Hpatch | reflexivity]].
Qed.

(** ** Invariants of the table *)

Lemma dispatch_store r req s :
  snd (dispatch auth refuses r req s) = snd (view auth refuses r req s).
Proof.
  unfold dispatch. destruct (view auth refuses r req s) as [[resp | e] s'];
    reflexivity.
Qed.

(** What a request can do to the table: nothing, append a row with a fresh
    key and a title that no row has up to case (POST), rewrite title and
    recipe of a row (PATCH), or remove the rows with one key (DELETE). *)
Lemma view_store r req s res s' :
  view auth refuses r req s = (res, s') ->
  s' = s
  \/ (r = POST_drinks
      /\ exists t rcp,
          filter (fun d => String.eqb (lower (title d)) (lower t)) s = []
          /\ s' = (s ++ [mkDrink (next_id s) t rcp])%list)
  \/ (exists i d t rcp,
         r = PATCH_drinks i /\ In d s
         /\ s' = map (fun x => if Z.eqb (id x) (id d)
                               then mkDrink (id d) t rcp else x) s)
  \/ (exists i d,
         r = DELETE_drinks i
         /\ s' = filter (fun x => negb (Z.eqb (id x) (id d))) s).
Proof.
  unfold view, requires_auth. intros H.
  destruct r as [ | | | i | i];
    try (destruct (auth _ _) as [a | payload];
         [left; now inversion H |]).
  - left. destruct (get_drinks_cases s) as [(shorts & _ & G) | G];
      rewrite G in H; now inversion H.
  - left.
    destruct (get_drinks_detail_cases payload s) as [(longs & _ & G) | G];
      rewrite G in H; now inversion H.
  - apply post_drink_store in H as [-> | H]; [now left |].
    right. left. split; [reflexivity | exact H].
  - apply patch_drink_store in H as [-> | (d & t & rcp & Hin & ->)];
      [now left |].
    right. right. left. exists i, d, t, rcp. repeat split. exact Hin.
  - apply delete_drink_store in H as [-> | (d & ->)]; [now left |].
    right. right. right. exists i, d. split; reflexivity.
Qed.

(** Every request keeps the primary keys distinct. *)
Lemma dispatch_primary_keys r req s :
  primary_keys s -> primary_keys (snd (dispatch auth refuses r req s)).
Proof.
  intros Hk. rewrite dispatch_store.
  destruct (view auth refuses r req s) as [res s'] eqn:V. simpl.
  apply view_store in V
    as [-> | [(_ & t & rcp & _ & ->)
             | [(i & d & t & rcp & _ & _ & ->) | (i & d & _ & ->)]]].
  - exact Hk.
  - now apply primary_keys_insert.
  - unfold primary_keys. now rewrite map_id_update.
  - now apply (nodup_map_filter id).
Qed.

Lemma serve_primary_keys reqs s :
  primary_keys s -> primary_keys (snd (serve auth refuses reqs s)).
Proof.
  revert s. induction reqs as [| [r req] reqs IH]; intros s Hk; [exact Hk |].
  simpl. pose proof (dispatch_primary_keys r req s Hk) as Hk'.
  destruct (dispatch auth refuses r req s) as [resp s1]. simpl in Hk'.
  specialize (IH s1 Hk').
  destruct (serve auth refuses reqs s1) as [resps s2]. exact IH.
Qed.

(** The tables a process can reach from its start have distinct keys. *)
Lemma reachable_primary_keys persisted reqs :
  primary_keys (snd (serve auth refuses reqs (startup persisted))).
Proof. apply serve_primary_keys. constructor. Qed.

(** Every route but PATCH keeps the titles unique up to case. *)
Lemma dispatch_titles_unique r req s :
  (forall i, r <> PATCH_drinks i) ->
  titles_unique s -> titles_unique (snd (dispatch auth refuses r req s)).
Proof.
  intros Hr Hu. rewrite dispatch_store.
  destruct (view auth refuses r req s) as [res s'] eqn:V. simpl.
  apply view_store in V
    as [-> | [(_ & t & rcp & Hf & ->)
             | [(i & d & t & rcp & -> & _ & _) | (i & d & _ & ->)]]].
  - exact Hu.
  - now apply titles_unique_insert.
  - now destruct (Hr i).
  - now apply (nodup_map_filter (fun d => lower (title d))).
Qed.

(** On a table with titles unique up to case, a POST whose payload is an
    object with object recipe entries and carries the title of a stored
    drink, in any case, is answered 422; the table is left as it was. *)
Lemma post_drink_duplicate_title req claims fields t d s :
  auth "post:drinks" (authorization req) = inr claims ->
  content req = Document (JObj fields) ->
  (forall entries, dict_get fields "recipe" = JArr entries ->
                   Forall (fun r => is_dict r = true) entries) ->
  dict_get fields "title" = JStr t ->
  titles_unique s -> In d s -> lower t = lower (title d) ->
  dispatch auth refuses POST_drinks req s = (unprocessable, s).
Proof.
  intros Hauth Hdata Hobj Ht Hu Hin Hsame.
  unfold dispatch, view, requires_auth. rewrite Hauth.
  unfold post_drink.
  rewrite (get_json_document _ _ Hdata), bind_ret_l. cbv beta.
  unfold bind at 1. rewrite (check_drink_attribute_object _ _ Hobj).
  destruct (attributes_ok fields); [| reflexivity].
  cbn [get]. unfold bind at 1. cbn [ret]. rewrite Ht.
  cbn [column_text]. unfold bind at 1. cbn [ret].
  unfold bind at 1, query_filter. rewrite Hsame.
  rewrite (filter_same_title _ _ Hu Hin). reflexivity.
Qed.

End Facts.

(** ** The views on the concrete deployment *)

Lemma fixture_auth_described permission header a :
  Fixture.check_auth permission header = inl a -> auth_error_described a.
Proof.
  unfold Fixture.check_auth, Fixture.check_permissions.
  destruct header as [h |].
  - destruct (String.eqb h "Bearer manager").
    + destruct (existsb _ _); intros [= <-].
      split; eexists; reflexivity.
    + destruct (String.eqb h "Bearer barista").
      * destruct (existsb _ _); intros [= <-].
        split; eexists; reflexivity.
      * intros [= <-]. split; eexists; reflexivity.
  - intros [= <-]. split; eexists; reflexivity.
Qed.

Lemma absent_in_menu : absent 5 Fixture.menu.
Proof. intros d [<- | []]. discriminate. Qed.

Lemma delete_unknown_id_answers_500_witness :
  Fixture.check_auth "delete:drinks"
    (authorization (Fixture.as_manager JNull))
  = inr (Fixture.claim_set Fixture.manager_permissions)
  /\ absent 5 Fixture.menu
  /\ Fixture.dispatch (DELETE_drinks 5) (Fixture.as_manager JNull)
       Fixture.menu
     = (unknown, Fixture.menu)
  /\ status unknown = 500.
Proof.
  split; [reflexivity |]. split; [exact absent_in_menu |].
  apply (delete_unknown_id_answers_500 Fixture.check_auth Fixture.title_taken
           (Fixture.as_manager JNull)
           (Fixture.claim_set Fixture.manager_permissions) 5 Fixture.menu).
  - reflexivity.
  - exact absent_in_menu.
Defined.

Lemma patch_unknown_id_answers_404_witness :
  Fixture.check_auth "patch:drinks"
    (authorization (Fixture.as_manager Fixture.mocha_malformed))
  = inr (Fixture.claim_set Fixture.manager_permissions)
  /\ content (Fixture.as_manager Fixture.mocha_malformed)
     = Document Fixture.mocha_malformed
  /\ 0 <= 5 < 2 ^ 63
  /\ absent 5 Fixture.menu
  /\ Fixture.dispatch (PATCH_drinks 5)
       (Fixture.as_manager Fixture.mocha_malformed) Fixture.menu
     = (not_found, Fixture.menu)
  /\ status not_found = 404.
Proof.
  split; [reflexivity |]. split; [reflexivity |]. split; [lia |].
  split; [exact absent_in_menu |].
  apply (patch_unknown_id_answers_404 Fixture.check_auth Fixture.title_taken
           (Fixture.as_manager Fixture.mocha_malformed)
           (Fixture.claim_set Fixture.manager_permissions)
           Fixture.mocha_malformed 5 Fixture.menu).
  - reflexivity.
  - reflexivity.
  - lia.
  - exact absent_in_menu.
Defined.

(** C7, as stated, fails before the lookup: [request.get_json()] is the
    first statement of [patch_drink], so a PATCH for an id that no row has,
    past the authorization check, with a body that does not parse is
    answered 400, not 404. *)
Lemma patch_unknown_id_malformed_body_counterexample :
  Fixture.check_auth "patch:drinks"
    (authorization Fixture.malformed_as_manager)
  = inr (Fixture.claim_set Fixture.manager_permissions)
  /\ absent 5 Fixture.menu
  /\ Fixture.dispatch (PATCH_drinks 5) Fixture.malformed_as_manager
       Fixture.menu
     = (bad_request, Fixture.menu)
  /\ status bad_request = 400
  /\ status (fst (Fixture.dispatch (PATCH_drinks 5)
                    Fixture.malformed_as_manager Fixture.menu)) <> 404.
Proof.
  split; [reflexivity |]. split; [exact absent_in_menu |].
  split; [reflexivity |]. split; [reflexivity | discriminate].
Qed.

Lemma success_key_by_route_witness :
  view Fixture.check_auth Fixture.title_taken GET_drinks
    (Fixture.anonymous JNull) []
  = (Returned (jsonify [("sucess", JBool true); ("drinks", JArr [])]), [])
  /\ status (jsonify [("sucess", JBool true); ("drinks", JArr [])]) = 200
  /\ body_field (jsonify [("sucess", JBool true); ("drinks", JArr [])])
       "success" = None
  /\ body_field (jsonify [("sucess", JBool true); ("drinks", JArr [])])
       "sucess" = Some (JBool true).
Proof.
  split; [reflexivity |].
  apply (success_key_by_route Fixture.check_auth Fixture.title_taken
           GET_drinks (Fixture.anonymous JNull) [] _ []).
  reflexivity.
Defined.

Lemma error_responses_uniform_witness :
  (forall permission header a,
      Fixture.check_auth permission header = inl a ->
      auth_error_described a)
  /\ error_envelope
       (fst (Fixture.dispatch POST_drinks
               (Fixture.anonymous Fixture.water) []))
  /\ has_error_code
       (fst (Fixture.dispatch POST_drinks
               (Fixture.anonymous Fixture.water) [])).
Proof.
  split; [exact fixture_auth_described |].
  destruct (error_responses_uniform Fixture.check_auth Fixture.title_taken
              fixture_auth_described) as (_ & _ & H).
  destruct (H POST_drinks (Fixture.anonymous Fixture.water) []
              (Unauthorized
                 (Fixture.auth_failure 401 "authorization_header_missing"
                    "Authorization header is expected."))
              [] eq_refl) as (_ & He & Hc).
  split; [exact He | exact (Hc _ eq_refl)].
Defined.

Lemma zero_parts_rejected_witness :
  content (Fixture.as_manager Fixture.latte_zero_parts)
  = Document
      (JObj [("title", JStr "Latte");
             ("recipe", JArr [Fixture.ingredient "milk" "white" 0])])
  /\ Exists zero_parts [Fixture.ingredient "milk" "white" 0]
  /\ primary_keys Fixture.menu
  /\ Fixture.dispatch POST_drinks
       (Fixture.as_manager Fixture.latte_zero_parts) Fixture.menu
     = (unprocessable, Fixture.menu)
  /\ Fixture.dispatch (PATCH_drinks 1)
       (Fixture.as_manager Fixture.latte_zero_parts) Fixture.menu
     = (unprocessable, Fixture.menu)
  /\ status unprocessable = 422.
Proof.
  assert (Hz : Exists zero_parts [Fixture.ingredient "milk" "white" 0]).
  { constructor. eexists. split; reflexivity. }
  assert (Hk : primary_keys Fixture.menu).
  { repeat constructor. intros []. }
  assert (Hd : Forall (fun r => is_dict r = true)
                 [Fixture.ingredient "milk" "white" 0]).
  { repeat constructor. }
  split; [reflexivity |]. split; [exact Hz |]. split; [exact Hk |].
  destruct (zero_parts_rejected Fixture.check_auth Fixture.title_taken
              (Fixture.as_manager Fixture.latte_zero_parts)
              (Fixture.claim_set Fixture.manager_permissions)
              _ _ Fixture.menu eq_refl eq_refl Hd Hz)
    as (Hpost & Hpatch & Hs).
  split; [exact (Hpost eq_refl) |]. split; [| exact Hs].
  exact (Hpatch (mkDrink 1 "Water"
                   (JArr [Fixture.ingredient "water" "blue" 1]))
           eq_refl Hk (or_introl eq_refl)).
Defined.

(** C10, as stated, fails for PATCH on an id that no row has: the payload
    has a recipe entry with parts 0, the request passes the authorization
    check, and the answer is 404, not 422. *)
Lemma zero_parts_patch_unknown_id_counterexample :
  (exists fields entries,
      content (Fixture.as_manager Fixture.latte_zero_parts)
      = Document (JObj fields)
      /\ assoc "recipe" fields = Some (JArr entries)
      /\ Exists zero_parts entries)
  /\ Fixture.check_auth "patch:drinks"
       (authorization (Fixture.as_manager Fixture.latte_zero_parts))
     = inr (Fixture.claim_set Fixture.manager_permissions)
  /\ status (fst (Fixture.dispatch (PATCH_drinks 5)
                    (Fixture.as_manager Fixture.latte_zero_parts)
                    Fixture.menu)) = 404
  /\ status (fst (Fixture.dispatch (PATCH_drinks 5)
                    (Fixture.as_manager Fixture.latte_zero_parts)
                    Fixture.menu)) <> 422.
Proof.
  split.
  - eexists. eexists. split; [reflexivity |]. split; [reflexivity |].
    constructor. eexists. split; reflexivity.
  - split; [reflexivity |]. split; [reflexivity | discriminate].
Qed.

(** C2, as the code has it: from the empty table two POSTs and one PATCH,
    all answered 200, leave two rows whose titles are equal up to case.
    Uniqueness holds after the POSTs and is lost by the PATCH, which runs no
    title check. *)
Theorem patch_breaks_title_uniqueness :
  map status (fst (Fixture.serve Fixture.retitle_history (startup [])))
  = [200; 200; 200]
  /\ titles_unique
       (snd (Fixture.serve (firstn 2 Fixture.retitle_history) (startup [])))
  /\ map title (snd (Fixture.serve Fixture.retitle_history (startup [])))
     = ["Water"; "water"]
  /\ ~ titles_unique
         (snd (Fixture.serve Fixture.retitle_history (startup []))).
Proof.
  split; [reflexivity |]. split; [| split; [reflexivity |]].
  - unfold titles_unique. cbn.
    constructor; [intros [E | []]; discriminate E |].
    constructor; [intros [] | constructor].
  - unfold titles_unique. cbn. intros H.
    inversion H as [| ? ? Hnot _]. apply Hnot. left. reflexivity.
Qed.

(** C3, as the code has it: a PATCH that succeeds answers under the key
    ["sucess"] with the short form of every row, recipe entries without
    their name; the long form of the updated row is another value. *)
Theorem patch_answers_short_forms :
  Fixture.dispatch (PATCH_drinks 2) (Fixture.as_manager Fixture.chai)
    Fixture.two_drinks
  = (jsonify
       [("sucess", JBool true);
        ("drinks",
         JArr [JObj [("id", JNum 1); ("title", JStr "Water");
                     ("recipe",
                      JArr [JObj [("color", JStr "blue");
                                  ("parts", JNum 1)]])];
               JObj [("id", JNum 2); ("title", JStr "Chai");
                     ("recipe",
                      JArr [JObj [("color", JStr "amber");
                                  ("parts", JNum 2)]])]])],
     [mkDrink 1 "Water" (JArr [Fixture.ingredient "water" "blue" 1]);
      mkDrink 2 "Chai" (JArr [Fixture.ingredient "chai" "amber" 2])])
  /\ long (mkDrink 2 "Chai" (JArr [Fixture.ingredient "chai" "amber" 2])) []
     = (Returned
          (JObj [("id", JNum 2); ("title", JStr "Chai");
                 ("recipe",
                  JArr [JObj [("name", JStr "chai");
                              ("color", JStr "amber");
                              ("parts", JNum 2)]])]), []).
Proof. split; reflexivity. Qed.

(** C5, as the code has it: a payload whose recipe holds a number before an
    object without name and parts makes the attribute check raise
    [AttributeError]; POST, and PATCH on an existing id, answer 500, not
    422.  No row is inserted or modified. *)
Theorem malformed_entry_answers_500 :
  check_drink_attribute Fixture.mocha_malformed Fixture.menu
  = (Raised AttributeError, Fixture.menu)
  /\ Fixture.dispatch POST_drinks
       (Fixture.as_manager Fixture.mocha_malformed) Fixture.menu
     = (unknown, Fixture.menu)
  /\ Fixture.dispatch (PATCH_drinks 1)
       (Fixture.as_manager Fixture.mocha_malformed) Fixture.menu
     = (unknown, Fixture.menu)
  /\ status unknown = 500.
Proof. repeat split. Qed.

(** C6, as the code has it: once a PATCH has left two rows with titles equal
    up to case, a POST of that title makes [one_or_none] raise
    [MultipleResultsFound] outside any [try]; the answer is 500, not 422.
    A POST of a stored title with a number as recipe entry is answered 500
    as well.  The row count is unchanged in both cases. *)
Theorem post_duplicate_title_answers_500 :
  map status
    (fst (Fixture.serve
            (Fixture.retitle_history
             ++ [(POST_drinks,
                  Fixture.as_manager
                    (Fixture.drink_payload "WATER"
                       [Fixture.ingredient "water" "blue" 1]))])
            (startup [])))
  = [200; 200; 200; 500]
  /\ snd (Fixture.serve
            (Fixture.retitle_history
             ++ [(POST_drinks,
                  Fixture.as_manager
                    (Fixture.drink_payload "WATER"
                       [Fixture.ingredient "water" "blue" 1]))])
            (startup []))
     = snd (Fixture.serve Fixture.retitle_history (startup []))
  /\ Fixture.dispatch POST_drinks
       (Fixture.as_manager Fixture.water_malformed) Fixture.menu
     = (unknown, Fixture.menu).
Proof. repeat split. Qed.

(** ** Further properties of the attribute check *)

Lemma recipe_entry_bad_not_object r s :
  is_dict r = false ->
  recipe_entry_bad r s = (Raised AttributeError, s).
Proof. destruct r; intros H; try reflexivity. discriminate H. Qed.

(** The loop over the recipe entries stops at the first entry that is not
    an object or lacks a truthy name, parts or color. *)
Lemma check_entries_outcome entries s :
  exists out,
    for_each entries
      (fun r => bad <- recipe_entry_bad r ;; when bad (abort 422)) s
    = (out, s)
    /\ ((out = Returned tt /\ forallb entry_ok entries = true)
        \/ (out = Raised (HTTPException 422)
            /\ forallb entry_ok entries = false)
        \/ (out = Raised AttributeError
            /\ Exists (fun r => is_dict r = false) entries)).
Proof.
  induction entries as [| r entries (out & E & IH)].
  - exists (Returned tt). split; [reflexivity | left; split; reflexivity].
  - cbn [for_each forallb]. unfold bind at 1. unfold bind at 1.
    destruct (is_dict r) eqn:D.
    + destruct r as [ | | | | | f]; try discriminate D.
      rewrite recipe_entry_bad_object.
      destruct (entry_ok (JObj f)); cbn [negb when andb].
      * exists out. split; [exact E |].
        destruct IH as [IH | [IH | [-> IH]]];
          [left; exact IH | right; left; exact IH |].
        right. right. split; [reflexivity | now apply Exists_cons_tl].
      * exists (Raised (HTTPException 422)).
        split; [reflexivity | right; left; split; reflexivity].
    + rewrite (recipe_entry_bad_not_object _ _ D).
      exists (Raised AttributeError).
      split; [reflexivity |]. right. right.
      split; [reflexivity | now apply Exists_cons_hd].
Qed.

(** The outcomes of the attribute check on any payload: it returns on an
    object that passes [attributes_ok], aborts with 422 on an object that
    does not, and raises [AttributeError] when the payload or, with a truthy
    title, an entry of its recipe list is not an object. *)
Lemma check_drink_attribute_outcome data s :
  exists out,
    check_drink_attribute data s = (out, s)
    /\ ((out = Returned tt
         /\ exists fields, data = JObj fields /\ attributes_ok fields = true)
        \/ (out = Raised (HTTPException 422)
            /\ exists fields,
                data = JObj fields /\ attributes_ok fields = false)
        \/ (out = Raised AttributeError
            /\ (is_dict data = false
                \/ exists fields entries,
                    data = JObj fields
                    /\ dict_get fields "recipe" = JArr entries
                    /\ Exists (fun r => is_dict r = false) entries))).
Proof.
  destruct data as [ | | | | | fields];
    try (exists (Raised AttributeError);
         split; [reflexivity | right; right; split; [reflexivity | now left]]).
  unfold check_drink_attribute.
  unfold por, bind at 1 2 3 4 5 6 7, get, ret.
  destruct (truthy (dict_get fields "title")) eqn:T; cbn [negb];
    [| exists (Raised (HTTPException 422)); split; [reflexivity |];
       right; left; split; [reflexivity |]; exists fields;
       split; [reflexivity |]; unfold attributes_ok; now rewrite T].
  assert (Hno : forall out,
             out = Raised (HTTPException 422) ->
             (match dict_get fields "recipe" with
              | JArr (e :: es) => forallb entry_ok (e :: es)
              | _ => false
              end) = false ->
             out = Returned tt /\
             (exists f, JObj fields = JObj f /\ attributes_ok f = true)
             \/ out = Raised (HTTPException 422) /\
                (exists f, JObj fields = JObj f /\ attributes_ok f = false)
             \/ out = Raised AttributeError /\
                (is_dict (JObj fields) = false
                 \/ exists f entries,
                     JObj fields = JObj f
                     /\ dict_get f "recipe" = JArr entries
                     /\ Exists (fun r => is_dict r = false) entries)).
  { intros out -> H. right. left. split; [reflexivity |].
    exists fields. split; [reflexivity |].
    unfold attributes_ok. now rewrite T, H. }
  destruct (dict_get fields "recipe") as [ | b | n | t | items | f] eqn:R;
    cbn [truthy negb is_list].
  - eexists. split; [reflexivity | now apply Hno].
  - destruct b; eexists; (split; [reflexivity | now apply Hno]).
  - destruct (Z.eqb n 0); eexists; (split; [reflexivity | now apply Hno]).
  - destruct (String.eqb t ""); eexists;
      (split; [reflexivity | now apply Hno]).
  - destruct items as [| e es];
      [eexists; split; [reflexivity | now apply Hno] |].
    cbn iota. unfold when at 1, bind at 1 2, iter. cbn beta iota.
    destruct (check_entries_outcome (e :: es) s) as (out & E & H).
    exists out. split; [exact E |].
    destruct H as [[-> H] | [[-> H] | [-> H]]].
    + left. split; [reflexivity |]. exists fields. split; [reflexivity |].
      unfold attributes_ok. now rewrite T, R.
    + now apply Hno.
    + right. right. split; [reflexivity |]. right.
      exists fields, (e :: es). repeat split; assumption.
  - destruct f; eexists; (split; [reflexivity | now apply Hno]).
Qed.

(** ** The two forms of a row *)

Lemma entry_ok_fields r :
  entry_ok r = true ->
  exists f c p,
    r = JObj f /\ assoc "color" f = Some c /\ assoc "parts" f = Some p.
Proof.
  destruct r as [ | | | | | f]; try (intros H; discriminate H).
  unfold entry_ok, dict_get. intros H.
  apply andb_prop in H as [H Hc]. apply andb_prop in H as [_ Hp].
  destruct (assoc "color" f) as [c |] eqn:Ec; [| discriminate Hc].
  destruct (assoc "parts" f) as [p |] eqn:Ep; [| discriminate Hp].
  exists f, c, p. repeat split; assumption.
Qed.

Lemma short_entry_ok r s :
  entry_ok r = true -> short_entry r s = (Returned (short_entry_of r), s).
Proof.
  intros H. destruct (entry_ok_fields r H) as (f & c & p & -> & Hc & Hp).
  unfold short_entry, bind, getitem, short_entry_of, dict_get.
  rewrite Hc, Hp. reflexivity.
Qed.

Lemma map_m_short_entry entries s :
  forallb entry_ok entries = true ->
  map_m short_entry entries s = (Returned (map short_entry_of entries), s).
Proof.
  induction entries as [| r entries IH]; intros H; [reflexivity |].
  cbn [forallb] in H. apply andb_prop in H as [Hr H].
  cbn [map_m map]. unfold bind at 1. rewrite (short_entry_ok _ _ Hr).
  unfold bind at 1. rewrite (IH H). reflexivity.
Qed.

(** On a row that the attribute check let in, [short] returns the short
    form. *)
Lemma short_row_ok d s :
  row_ok d = true -> short d s = (Returned (short_of d), s).
Proof.
  unfold row_ok, short, short_of. intros H.
  apply andb_prop in H as [_ H].
  destruct (recipe d) as [ | | | | [| e es] | ]; try discriminate H.
  unfold bind at 1. cbn [iter ret]. unfold bind at 1.
  rewrite (map_m_short_entry _ _ H). reflexivity.
Qed.

Lemma map_m_short_rows_ok rows s :
  rows_ok rows -> map_m short rows s = (Returned (map short_of rows), s).
Proof.
  induction 1 as [| d rows Hd _ IH]; [reflexivity |].
  cbn [map_m map]. unfold bind at 1. rewrite (short_row_ok _ _ Hd).
  unfold bind at 1. rewrite IH. reflexivity.
Qed.

Lemma map_m_long rows s :
  map_m long rows s = (Returned (map long_of rows), s).
Proof.
  induction rows as [| d rows IH]; [reflexivity |].
  cbn [map_m map]. unfold bind at 1. unfold long at 1, ret at 1.
  unfold bind at 1. rewrite IH. reflexivity.
Qed.

Lemma get_drinks_rows_ok s :
  rows_ok s ->
  get_drinks s
  = (Returned (jsonify [("sucess", JBool true);
                        ("drinks", JArr (map short_of s))]), s).
Proof.
  intros H. unfold get_drinks, try_except, bind, query_all.
  rewrite (map_m_short_rows_ok _ _ H). reflexivity.
Qed.

Lemma get_drinks_detail_total payload s :
  get_drinks_detail payload s
  = (Returned (jsonify [("sucess", JBool true);
                        ("drinks", JArr (map long_of s))]), s).
Proof.
  unfold get_drinks_detail, try_except, bind, query_all.
  rewrite map_m_long. reflexivity.
Qed.

Lemma short_entry_of_hides_name r f :
  short_entry_of r = JObj f -> assoc "name" f = None.
Proof.
  destruct r; simpl; try discriminate. intros [= <-]. reflexivity.
Qed.

(** ** The views step by step *)

Lemma attributes_ok_inv fields :
  attributes_ok fields = true ->
  truthy (dict_get fields "title") = true
  /\ exists e es,
      dict_get fields "recipe" = JArr (e :: es)
      /\ forallb entry_ok (e :: es) = true.
Proof.
  unfold attributes_ok. intros H. apply andb_prop in H as [Ht H].
  split; [exact Ht |].
  destruct (dict_get fields "recipe") as [ | | | | [| e es] | ];
    try discriminate H.
  exists e, es. split; [reflexivity | exact H].
Qed.

Lemma entry_ok_is_dict entries :
  forallb entry_ok entries = true ->
  Forall (fun r => is_dict r = true) entries.
Proof.
  induction entries as [| r entries IH]; intros H; constructor;
    cbn [forallb] in H; apply andb_prop in H as [Hr H].
  - destruct r; try discriminate Hr. reflexivity.
  - now apply IH.
Qed.

Lemma check_drink_attribute_passes fields s :
  attributes_ok fields = true ->
  check_drink_attribute (JObj fields) s = (Returned tt, s).
Proof.
  intros H. rewrite check_drink_attribute_object; [now rewrite H |].
  intros entries R.
  destruct (attributes_ok_inv _ H) as (_ & e & es & R' & Hok).
  rewrite R in R'. injection R' as ->. now apply entry_ok_is_dict.
Qed.

(** A row made of a checked title and recipe is one the check let in. *)
Lemma row_ok_of_attributes fields t k :
  attributes_ok fields = true ->
  dict_get fields "title" = JStr t ->
  row_ok (mkDrink k t (dict_get fields "recipe")) = true.
Proof.
  intros H Ht. destruct (attributes_ok_inv _ H) as (Htt & e & es & R & Hok).
  unfold row_ok. cbn [title recipe]. rewrite R, Hok.
  rewrite Ht in Htt. cbn [truthy] in Htt. now rewrite Htt.
Qed.

Lemma rows_ok_rewrite d t rcp s :
  rows_ok s -> row_ok (mkDrink (id d) t rcp) = true ->
  rows_ok (rewrite_row d t rcp s).
Proof.
  unfold rows_ok, rewrite_row. intros Hs Hd.
  apply Forall_forall. intros x Hx.
  apply in_map_iff in Hx as (y & <- & Hy).
  destruct (Z.eqb (id y) (id d)); [exact Hd |].
  now apply (proj1 (Forall_forall _ _) Hs).
Qed.

Lemma rows_ok_filter p s : rows_ok s -> rows_ok (filter p s).
Proof.
  unfold rows_ok. intros Hs. apply Forall_forall. intros x Hx.
  apply filter_In in Hx as [Hx _].
  now apply (proj1 (Forall_forall _ _) Hs).
Qed.

Lemma rows_ok_insert s d :
  rows_ok s -> row_ok d = true -> rows_ok (s ++ [d])%list.
Proof.
  unfold rows_ok. intros Hs Hd. apply Forall_app. split; [exact Hs |].
  now constructor.
Qed.

(** POST, whatever it answers, leaves the table as it was or appends the
    row made of the checked title and recipe of the payload. *)
Lemma post_drink_steps refuses payload req s r s' :
  post_drink refuses payload req s = (r, s') ->
  s' = s
  \/ exists fields t,
      content req = Document (JObj fields)
      /\ attributes_ok fields = true
      /\ dict_get fields "title" = JStr t
      /\ s' = (s ++ [mkDrink (next_id s) t (dict_get fields "recipe")])%list
      /\ r = Returned
               (jsonify
                  [("success", JBool true);
                   ("drinks",
                    JArr [short_of (mkDrink (next_id s) t
                                      (dict_get fields "recipe"))])]).
Proof.
  unfold post_drink. intros H.
  read_body req H data; [| left; now inversion H].
  destruct (check_drink_attribute_outcome data s)
    as (out & C & [[-> (fields & Hd & Hok)] | [[-> _] | [-> _]]]).
  2, 3: left; rewrite (bind_raised _ _ _ _ _ C) in H; now inversion H.
  rewrite (bind_returned _ _ _ _ _ C) in H. clear C.
  subst data. cbn [get] in H. unfold bind at 1 in H. cbn [ret] in H.
  destruct (dict_get fields "title") as [ | | | t | | ] eqn:Ht;
    try (left; now inversion H).
  cbn [column_text] in H. unfold bind at 1 in H. cbn [ret] in H.
  unfold bind at 1 in H. unfold query_filter in H.
  destruct (filter (fun d => String.eqb (lower (title d)) (lower t)) s)
    as [| d [| d' rows]] eqn:F;
    try (left; now inversion H).
  unfold bind at 1 2 in H. cbn [one_or_none ret when] in H.
  cbv beta iota zeta
      delta [try_except bind ret column_text insert logging_exception
             abort raise get] in H.
  destruct (refuses s _).
  - left. now inversion H.
  - right. exists fields, t.
    rewrite (short_row_ok _ _ (row_ok_of_attributes _ _ _ Hok Ht)) in H.
    inversion H. repeat split; assumption.
Qed.

(** PATCH, whatever it answers, leaves the table as it was or rewrites the
    row it found with the checked title and recipe of the payload. *)
Lemma patch_drink_steps refuses payload drink_id req s r s' :
  patch_drink refuses payload drink_id req s = (r, s') ->
  s' = s
  \/ exists d fields t,
      In d s
      /\ content req = Document (JObj fields)
      /\ attributes_ok fields = true
      /\ dict_get fields "title" = JStr t
      /\ s' = rewrite_row d t (dict_get fields "recipe") s
      /\ (rows_ok s ->
          r = Returned
                (jsonify [("sucess", JBool true);
                          ("drinks", JArr (map short_of s'))])).
Proof.
  unfold patch_drink. intros H.
  read_body req H data; [| left; now inversion H].
  unfold bind at 1 2 in H. unfold query_filter in H.
  destruct (filter (fun d => Z.eqb (id d) drink_id) s)
    as [| d [| d' rows]] eqn:F;
    try (left; now inversion H).
  cbn [one_or_none ret] in H.
  assert (Hin : In d s).
  { apply (proj1 (filter_In (fun d => Z.eqb (id d) drink_id) d s)).
    rewrite F. now left. }
  destruct (check_drink_attribute_outcome data s)
    as (out & C & [[-> (fields & Hd & Hok)] | [[-> _] | [-> _]]]).
  2, 3: left; rewrite (bind_raised _ _ _ _ _ C) in H; now inversion H.
  rewrite (bind_returned _ _ _ _ _ C) in H. clear C.
  subst data. cbn [get] in H.
  destruct (dict_get fields "title") as [ | | | t | | ] eqn:Ht;
    try (left; now inversion H).
  cbv beta iota zeta
      delta [try_except bind ret column_text update abort raise] in H.
  cbn [id] in H.
  destruct (refuses _ _).
  - left. now inversion H.
  - right. exists d, fields, t.
    assert (Hs' : s' = rewrite_row d t (dict_get fields "recipe") s).
    { match type of H with
      | context [get_drinks ?st] =>
          destruct (get_drinks_cases st) as [(shorts & _ & G) | G];
          rewrite G in H
      end; now inversion H. }
    repeat split; try assumption.
    intros Hrows.
    fold (rewrite_row d t (dict_get fields "recipe") s) in H.
    rewrite get_drinks_rows_ok in H.
    + rewrite Hs'. now inversion H.
    + apply rows_ok_rewrite; [exact Hrows |].
      now apply row_ok_of_attributes.
Qed.


(** ** The codes a view aborts with *)

Lemma aborts_with_abort {A} codes code :
  In code codes -> only_raises (aborts_with codes) (@abort A code).
Proof. intros H. apply only_raises_raise. exact H. Qed.

Lemma aborts_with_more codes codes' e :
  incl codes codes' -> aborts_with codes e -> aborts_with codes' e.
Proof. intros Hi. destruct e; simpl; auto. Qed.

Lemma only_raises_weaken {A} (P Q : exn -> Prop) (m : M A) :
  (forall e, P e -> Q e) -> only_raises P m -> only_raises Q m.
Proof. intros HPQ Hm s e s' E. apply HPQ. eapply Hm; exact E. Qed.

Lemma check_drink_attribute_aborts data :
  only_raises (aborts_with [422]) (check_drink_attribute data).
Proof.
  intros s e s' E.
  destruct (check_drink_attribute_outcome data s)
    as (out & C & [[-> _] | [[-> _] | [-> _]]]);
    rewrite C in E; inversion E; subst; simpl; auto.
Qed.

Lemma aborts_with_get codes v k : only_raises (aborts_with codes) (get v k).
Proof.
  destruct v; simpl; try (apply only_raises_raise; exact I).
  apply only_raises_ret.
Qed.

Lemma aborts_with_column_text codes v :
  only_raises (aborts_with codes) (column_text v).
Proof.
  destruct v; simpl; try (apply only_raises_raise; exact I).
  apply only_raises_ret.
Qed.

Lemma aborts_with_one_or_none codes rows :
  only_raises (aborts_with codes) (one_or_none rows).
Proof.
  destruct rows as [| d [| d' rows]]; simpl;
    [apply only_raises_ret | apply only_raises_ret |].
  apply only_raises_raise. exact I.
Qed.

Lemma aborts_with_get_json codes req :
  In 400 codes -> only_raises (aborts_with codes) (get_json req).
Proof.
  intros H. unfold get_json. destruct (content req);
    [apply only_raises_ret | now apply aborts_with_abort].
Qed.

Lemma get_drinks_aborts : only_raises (aborts_with [500]) get_drinks.
Proof.
  unfold get_drinks. apply only_raises_try_except. intros e.
  apply only_raises_bind; [apply only_raises_ret | intros _].
  apply aborts_with_abort. now left.
Qed.

Lemma delete_drink_aborts payload drink_id :
  only_raises (aborts_with [500]) (delete_drink payload drink_id).
Proof.
  unfold delete_drink. apply only_raises_try_except. intros e.
  apply only_raises_bind; [apply only_raises_ret | intros _].
  apply aborts_with_abort. now left.
Qed.

Lemma post_drink_aborts refuses payload req :
  only_raises (aborts_with [422; 400]) (post_drink refuses payload req).
Proof.
  unfold post_drink.
  apply only_raises_bind;
    [apply aborts_with_get_json; right; now left | intros data].
  apply only_raises_bind; [| intros _].
  { eapply only_raises_weaken; [| apply check_drink_attribute_aborts].
    intros e. apply aborts_with_more. intros c [<- | []]. now left. }
  apply only_raises_bind; [apply aborts_with_get | intros t].
  apply only_raises_bind; [apply aborts_with_column_text | intros wanted].
  apply only_raises_bind; [apply only_raises_query_filter | intros rows].
  apply only_raises_bind; [apply aborts_with_one_or_none | intros drink].
  apply only_raises_bind; [| intros _].
  { apply only_raises_when, aborts_with_abort. now left. }
  apply only_raises_try_except. intros e.
  apply only_raises_bind; [apply only_raises_ret | intros _].
  apply aborts_with_abort. right. now left.
Qed.

Lemma patch_drink_aborts refuses payload drink_id req :
  only_raises (aborts_with [404; 422; 400])
    (patch_drink refuses payload drink_id req).
Proof.
  unfold patch_drink.
  apply only_raises_bind;
    [apply aborts_with_get_json; right; right; now left | intros data].
  apply only_raises_bind; [apply only_raises_query_filter | intros rows].
  apply only_raises_bind; [apply aborts_with_one_or_none | intros [d |]].
  - apply only_raises_bind; [| intros _].
    { eapply only_raises_weaken; [| apply check_drink_attribute_aborts].
      intros e. apply aborts_with_more. intros c [<- | []]. right. now left. }
    apply only_raises_try_except. intros e.
    apply aborts_with_abort. right. right. now left.
  - apply aborts_with_abort. now left.
Qed.

(** An exception with one of the registered codes is answered with that
    code, any other Python exception with 500. *)
Lemma aborts_with_status codes e :
  incl codes [400; 404; 422; 500] ->
  aborts_with codes e ->
  In (status (handle_exception e)) codes
  \/ status (handle_exception e) = 500.
Proof.
  intros Hi H. destruct e; simpl in H; try contradiction; try (now right).
  left. pose proof (Hi _ H) as Hc. simpl in Hc.
  destruct Hc as [<- | [<- | [<- | [<- | []]]]]; exact H.
Qed.

(** ** The attribute check, completely *)

(** The attribute check returns exactly on the payloads that are a JSON
    object with a truthy title and a non-empty recipe list whose entries are
    objects with truthy name, parts and color. *)
Theorem attribute_check_accepts_iff data s :
  check_drink_attribute data s = (Returned tt, s)
  <-> exists fields, data = JObj fields /\ attributes_ok fields = true.
Proof.
  split.
  - intros H.
    destruct (check_drink_attribute_outcome data s)
      as (out & C & [[-> Hok] | [[-> _] | [-> _]]]);
      rewrite C in H; try discriminate H. exact Hok.
  - intros (fields & -> & Hok). now apply check_drink_attribute_passes.
Qed.

(** The attribute check has three outcomes and writes in none: it returns,
    it aborts with 422, or it raises [AttributeError]; the last only when
    the payload, or an entry of its recipe list, is not a JSON object. *)
Theorem attribute_check_three_outcomes data s :
  check_drink_attribute data s = (Returned tt, s)
  \/ check_drink_attribute data s = (Raised (HTTPException 422), s)
  \/ (check_drink_attribute data s = (Raised AttributeError, s)
      /\ (is_dict data = false
          \/ exists fields entries,
              data = JObj fields
              /\ dict_get fields "recipe" = JArr entries
              /\ Exists (fun r => is_dict r = false) entries)).
Proof.
  destruct (check_drink_attribute_outcome data s)
    as (out & C & [[-> _] | [[-> _] | [-> H]]]).
  - now left.
  - right. now left.
  - right. right. split; assumption.
Qed.

Lemma forallb_entry_ok_false entries r :
  In r entries -> entry_ok r = false -> forallb entry_ok entries = false.
Proof.
  intros Hin Hr. destruct (forallb entry_ok entries) eqn:E; [| reflexivity].
  rewrite (proj1 (forallb_forall _ _) E r Hin) in Hr. discriminate Hr.
Qed.

Lemma entry_missing_key_not_ok f :
  assoc "name" f = None \/ assoc "color" f = None \/ assoc "parts" f = None ->
  entry_ok (JObj f) = false.
Proof.
  unfold entry_ok, dict_get. intros [H | [H | H]]; rewrite H; cbn [truthy].
  - reflexivity.
  - apply andb_false_r.
  - now rewrite andb_false_r.
Qed.

Section Coverage.

Variable auth : string -> option string -> AuthError + json.
Variable refuses : Store -> Drink -> bool.

(** A payload that is a JSON object with object recipe entries and misses
    the title, misses the recipe, has a recipe that is no list, or has an
    entry without name, color or parts is answered 422 by POST and by PATCH
    on an existing id, and the table is left as it was. *)
Theorem missing_attribute_rejected req claims fields s :
  content req = Document (JObj fields) ->
  (forall entries, dict_get fields "recipe" = JArr entries ->
                   Forall (fun r => is_dict r = true) entries) ->
  (assoc "title" fields = None
   \/ assoc "recipe" fields = None
   \/ is_list (dict_get fields "recipe") = false
   \/ exists entries f,
       dict_get fields "recipe" = JArr entries
       /\ In (JObj f) entries
       /\ (assoc "name" f = None \/ assoc "color" f = None
           \/ assoc "parts" f = None)) ->
  (auth "post:drinks" (authorization req) = inr claims ->
   dispatch auth refuses POST_drinks req s = (unprocessable, s))
  /\ (forall d,
         auth "patch:drinks" (authorization req) = inr claims ->
         primary_keys s -> In d s ->
         dispatch auth refuses (PATCH_drinks (id d)) req s
         = (unprocessable, s)).
Proof.
  intros Hdata Hobj Hmiss.
  apply (invalid_attributes_rejected auth refuses req claims fields s
           Hdata Hobj).
  unfold attributes_ok.
  destruct Hmiss as [H | [H | [H | (entries & f & R & Hin & H)]]].
  - unfold dict_get at 1. now rewrite H.
  - unfold dict_get at 2. rewrite H. apply andb_false_r.
  - destruct (dict_get fields "recipe"); try apply andb_false_r.
    discriminate H.
  - rewrite R. destruct entries as [| e es]; [destruct Hin |].
    rewrite (forallb_entry_ok_false _ _ Hin (entry_missing_key_not_ok _ H)).
    apply andb_false_r.
Qed.

(** A body that is no JSON object, the missing body included, makes the
    attribute check raise [AttributeError]: POST, and PATCH on an existing
    id, answer 500 and leave the table as it was. *)
Theorem payload_not_object_answers_500 req claims data s :
  content req = Document data ->
  is_dict data = false ->
  (auth "post:drinks" (authorization req) = inr claims ->
   dispatch auth refuses POST_drinks req s = (unknown, s))
  /\ (forall d,
         auth "patch:drinks" (authorization req) = inr claims ->
         primary_keys s -> In d s ->
         dispatch auth refuses (PATCH_drinks (id d)) req s = (unknown, s)).
Proof.
  intros Hdata Hd.
  assert (Hcheck : check_drink_attribute data s
                   = (Raised AttributeError, s)).
  { destruct data; try reflexivity. discriminate Hd. }
  split.
  - intros Hauth. unfold dispatch, view, requires_auth. rewrite Hauth.
    rewrite (post_drink_check_raises refuses _ _ _ _ _ _ Hdata Hcheck).
    reflexivity.
  - intros d Hauth Hk Hin. unfold dispatch, view, requires_auth.
    rewrite Hauth.
    rewrite (patch_drink_check_raises refuses _ _ _ _ _ _ _ Hk Hin Hdata
               Hcheck).
    reflexivity.
Qed.

(** GET /drinks-detail, once past the authorization check, never fails and
    never writes: it answers 200 with the long form of every row, in table
    order, recipes as they are stored. *)
Theorem get_drinks_detail_lists_long_forms req claims s :
  auth "get:drinks-detail" (authorization req) = inr claims ->
  dispatch auth refuses GET_drinks_detail req s
  = (jsonify [("sucess", JBool true); ("drinks", JArr (map long_of s))], s).
Proof.
  intros Hauth. unfold dispatch, view, requires_auth. rewrite Hauth.
  rewrite get_drinks_detail_total. reflexivity.
Qed.

(** GET /drinks is public: whatever the request carries, on a table of
    checked rows it answers 200 with the short form of every row, in table
    order, and no recipe entry of a short form has a name. *)
Theorem get_drinks_lists_short_forms req s :
  rows_ok s ->
  dispatch auth refuses GET_drinks req s
  = (jsonify [("sucess", JBool true); ("drinks", JArr (map short_of s))], s)
  /\ forall r f, short_entry_of r = JObj f -> assoc "name" f = None.
Proof.
  intros H. split; [| exact short_entry_of_hides_name].
  unfold dispatch, view. rewrite (get_drinks_rows_ok _ H). reflexivity.
Qed.

(** A request to a protected route that fails the authorization check never
    reaches the view: the answer is the one of the [AuthError] handler, with
    the status the error carries, and the table is left as it was. *)
Theorem unauthorized_request_rejected r permission req e s :
  required_permission r = Some permission ->
  auth permission (authorization req) = inl e ->
  dispatch auth refuses r req s = (auth_error e, s)
  /\ status (auth_error e) = status_code e.
Proof.
  intros Hr Ha. split; [| reflexivity].
  unfold dispatch, view, requires_auth.
  destruct r; simpl in Hr; inversion Hr; subst; rewrite Ha; reflexivity.
Qed.

Lemma filter_no_title t s :
  (forall d, In d s -> lower (title d) <> lower t) ->
  filter (fun d => String.eqb (lower (title d)) (lower t)) s = [].
Proof.
  intros H. apply filter_none. intros d Hd.
  apply String.eqb_neq. now apply H.
Qed.

(** POST on a checked payload whose title no row has up to case: the insert
    decides. *)
Lemma post_drink_insert payload req fields t s :
  content req = Document (JObj fields) ->
  attributes_ok fields = true ->
  dict_get fields "title" = JStr t ->
  (forall d, In d s -> lower (title d) <> lower t) ->
  post_drink refuses payload req s
  = if refuses s (mkDrink (next_id s) t (dict_get fields "recipe"))
    then (Raised (HTTPException 400), s)
    else (Returned
            (jsonify
               [("success", JBool true);
                ("drinks",
                 JArr [short_of (mkDrink (next_id s) t
                                   (dict_get fields "recipe"))])]),
          (s ++ [mkDrink (next_id s) t (dict_get fields "recipe")])%list).
Proof.
  intros Hdata Hok Ht Hfree. unfold post_drink.
  rewrite (get_json_document _ _ Hdata), bind_ret_l. cbv beta.
  unfold bind at 1. rewrite (check_drink_attribute_passes _ _ Hok).
  cbn [get]. unfold bind at 1. cbn [ret]. rewrite Ht.
  cbn [column_text]. unfold bind at 1. cbn [ret].
  unfold bind at 1, query_filter. rewrite (filter_no_title _ _ Hfree).
  unfold bind at 1 2. cbn [one_or_none ret when].
  cbv beta iota zeta
      delta [try_except bind ret column_text insert logging_exception
             abort raise].
  destruct (refuses s _); [reflexivity |].
  rewrite (short_row_ok _ _ (row_ok_of_attributes _ _ _ Hok Ht)).
  reflexivity.
Qed.

(** PATCH on an existing id with a checked payload: the update decides. *)
Lemma patch_drink_update payload req fields t d s :
  primary_keys s -> rows_ok s -> In d s ->
  content req = Document (JObj fields) ->
  attributes_ok fields = true ->
  dict_get fields "title" = JStr t ->
  patch_drink refuses payload (id d) req s
  = if refuses (filter (fun x => negb (Z.eqb (id x) (id d))) s)
         (mkDrink (id d) t (dict_get fields "recipe"))
    then (Raised (HTTPException 400), s)
    else (Returned
            (jsonify
               [("sucess", JBool true);
                ("drinks",
                 JArr (map short_of
                         (rewrite_row d t (dict_get fields "recipe") s)))]),
          rewrite_row d t (dict_get fields "recipe") s).
Proof.
  intros Hk Hrows Hin Hdata Hok Ht. unfold patch_drink.
  rewrite (get_json_document _ _ Hdata), bind_ret_l. cbv beta.
  unfold bind at 1 2, query_filter. rewrite (filter_primary_key _ _ Hk Hin).
  cbn [one_or_none ret].
  unfold bind at 1. rewrite (check_drink_attribute_passes _ _ Hok).
  cbn [get]. rewrite Ht.
  cbv beta iota zeta
      delta [try_except bind ret column_text update abort raise].
  cbn [id].
  destruct (refuses _ _); [reflexivity |].
  fold (rewrite_row d t (dict_get fields "recipe") s).
  rewrite get_drinks_rows_ok; [reflexivity |].
  apply rows_ok_rewrite; [exact Hrows |].
  now apply row_ok_of_attributes.
Qed.

(** POST with a payload that passes the attribute check and a title that no
    stored title equals up to case, on a table that takes the row, answers
    200 with the short form of the new row alone; the row is appended with
    a key no row had, the title and the recipe of the payload. *)
Theorem post_creates_drink req claims fields t s :
  auth "post:drinks" (authorization req) = inr claims ->
  content req = Document (JObj fields) ->
  attributes_ok fields = true ->
  dict_get fields "title" = JStr t ->
  (forall d, In d s -> lower (title d) <> lower t) ->
  refuses s (mkDrink (next_id s) t (dict_get fields "recipe")) = false ->
  dispatch auth refuses POST_drinks req s
  = (jsonify
       [("success", JBool true);
        ("drinks",
         JArr [short_of (mkDrink (next_id s) t (dict_get fields "recipe"))])],
     (s ++ [mkDrink (next_id s) t (dict_get fields "recipe")])%list)
  /\ absent (next_id s) s.
Proof.
  intros Hauth Hdata Hok Ht Hfree Hacc. split.
  - unfold dispatch, view, requires_auth. rewrite Hauth.
    rewrite (post_drink_insert _ _ _ _ _ Hdata Hok Ht Hfree), Hacc.
    reflexivity.
  - intros d Hd E. apply next_id_above in Hd. lia.
Qed.

(** Round trip: after such a POST, GET /drinks-detail lists the long forms
    of the rows there were, followed by the long form of the new drink, with
    the title and the recipe exactly as they were posted. *)
Theorem post_then_detail_round_trip req req' claims claims' fields t s :
  auth "post:drinks" (authorization req) = inr claims ->
  auth "get:drinks-detail" (authorization req') = inr claims' ->
  content req = Document (JObj fields) ->
  attributes_ok fields = true ->
  dict_get fields "title" = JStr t ->
  (forall d, In d s -> lower (title d) <> lower t) ->
  refuses s (mkDrink (next_id s) t (dict_get fields "recipe")) = false ->
  snd (serve auth refuses [(POST_drinks, req)] s)
  = (s ++ [mkDrink (next_id s) t (dict_get fields "recipe")])%list
  /\ fst (dispatch auth refuses GET_drinks_detail req'
            (snd (serve auth refuses [(POST_drinks, req)] s)))
     = jsonify
         [("sucess", JBool true);
          ("drinks",
           JArr (map long_of s
                 ++ [JObj [("id", JNum (next_id s)); ("title", JStr t);
                           ("recipe", dict_get fields "recipe")]]))].
Proof.
  intros Hpost Hdetail Hdata Hok Ht Hfree Hacc.
  assert (Hs : snd (serve auth refuses [(POST_drinks, req)] s)
               = (s ++ [mkDrink (next_id s) t
                          (dict_get fields "recipe")])%list).
  { cbn [serve]. unfold dispatch, view, requires_auth. rewrite Hpost.
    rewrite (post_drink_insert _ _ _ _ _ Hdata Hok Ht Hfree), Hacc.
    reflexivity. }
  split; [exact Hs |]. rewrite Hs.
  unfold dispatch, view, requires_auth. rewrite Hdetail.
  rewrite get_drinks_detail_total, map_app. reflexivity.
Qed.

(** When the data store refuses the write, POST and PATCH answer 400 and the
    table is left as it was. *)
Theorem refused_write_answers_400 req claims fields t s :
  content req = Document (JObj fields) ->
  attributes_ok fields = true ->
  dict_get fields "title" = JStr t ->
  (auth "post:drinks" (authorization req) = inr claims ->
   (forall d, In d s -> lower (title d) <> lower t) ->
   refuses s (mkDrink (next_id s) t (dict_get fields "recipe")) = true ->
   dispatch auth refuses POST_drinks req s = (bad_request, s))
  /\ (forall d,
         auth "patch:drinks" (authorization req) = inr claims ->
         primary_keys s -> In d s ->
         refuses (filter (fun x => negb (Z.eqb (id x) (id d))) s)
           (mkDrink (id d) t (dict_get fields "recipe")) = true ->
         dispatch auth refuses (PATCH_drinks (id d)) req s
         = (bad_request, s)).
Proof.
  intros Hdata Hok Ht. split.
  - intros Hauth Hfree Href. unfold dispatch, view, requires_auth.
    rewrite Hauth, (post_drink_insert _ _ _ _ _ Hdata Hok Ht Hfree), Href.
    reflexivity.
  - intros d Hauth Hk Hin Href. unfold dispatch, view, requires_auth.
    rewrite Hauth. unfold patch_drink.
    rewrite (get_json_document _ _ Hdata), bind_ret_l. cbv beta.
    unfold bind at 1 2, query_filter. rewrite (filter_primary_key _ _ Hk Hin).
    cbn [one_or_none ret].
    unfold bind at 1. rewrite (check_drink_attribute_passes _ _ Hok).
    cbn [get]. rewrite Ht.
    cbv beta iota zeta
        delta [try_except bind ret column_text update abort raise].
    cbn [id]. rewrite Href. reflexivity.
Qed.

(** PATCH on an existing id with a payload that passes the attribute check,
    on a table that takes the row: the row keeps its key and its place and
    gets the title and the recipe of the payload, every other row stays as
    it is, and the answer is 200 with the short form of every row of the
    table after the update. *)
Theorem patch_rewrites_drink req claims fields t d s :
  auth "patch:drinks" (authorization req) = inr claims ->
  primary_keys s -> rows_ok s -> In d s ->
  content req = Document (JObj fields) ->
  attributes_ok fields = true ->
  dict_get fields "title" = JStr t ->
  refuses (filter (fun x => negb (Z.eqb (id x) (id d))) s)
    (mkDrink (id d) t (dict_get fields "recipe")) = false ->
  dispatch auth refuses (PATCH_drinks (id d)) req s
  = (jsonify
       [("sucess", JBool true);
        ("drinks",
         JArr (map short_of (rewrite_row d t (dict_get fields "recipe") s)))],
     rewrite_row d t (dict_get fields "recipe") s)
  /\ map id (rewrite_row d t (dict_get fields "recipe") s) = map id s
  /\ In (mkDrink (id d) t (dict_get fields "recipe"))
        (rewrite_row d t (dict_get fields "recipe") s)
  /\ forall x, In x s -> id x <> id d ->
               In x (rewrite_row d t (dict_get fields "recipe") s).
Proof.
  intros Hauth Hk Hrows Hin Hdata Hok Ht Hacc. split; [| split; [| split]].
  - unfold dispatch, view, requires_auth.
    rewrite Hauth, (patch_drink_update _ _ _ _ _ _ Hk Hrows Hin Hdata Hok Ht).
    rewrite Hacc. reflexivity.
  - apply map_id_update.
  - unfold rewrite_row. apply in_map_iff. exists d.
    rewrite Z.eqb_refl. split; [reflexivity | exact Hin].
  - intros x Hx Hne. unfold rewrite_row. apply in_map_iff. exists x.
    destruct (Z.eqb_spec (id x) (id d)) as [E | _]; [contradiction |].
    split; [reflexivity | exact Hx].
Qed.

Lemma find_present d s :
  In d s ->
  exists d', find (fun x => Z.eqb (id x) (id d)) s = Some d' /\ id d' = id d.
Proof.
  intros Hin. destruct (find (fun x => Z.eqb (id x) (id d)) s) as [d' |] eqn:F.
  - exists d'. split; [reflexivity |].
    apply find_some in F as [_ E]. now apply Z.eqb_eq.
  - exfalso. apply (find_none _ _ F) in Hin. now rewrite Z.eqb_refl in Hin.
Qed.

(** DELETE on an existing id answers 200 with [{success: true, delete:
    id}]; the table loses the rows with that key and keeps every other row;
    the id is gone, so the same DELETE sent again is answered 500. *)
Theorem delete_removes_drink req claims d s :
  auth "delete:drinks" (authorization req) = inr claims ->
  In d s ->
  dispatch auth refuses (DELETE_drinks (id d)) req s
  = (jsonify [("success", JBool true); ("delete", JNum (id d))],
     filter (fun x => negb (Z.eqb (id x) (id d))) s)
  /\ (forall x, In x (filter (fun x => negb (Z.eqb (id x) (id d))) s)
                <-> In x s /\ id x <> id d)
  /\ dispatch auth refuses (DELETE_drinks (id d)) req
       (filter (fun x => negb (Z.eqb (id x) (id d))) s)
     = (unknown, filter (fun x => negb (Z.eqb (id x) (id d))) s).
Proof.
  intros Hauth Hin.
  assert (Hmem : forall x,
             In x (filter (fun x => negb (Z.eqb (id x) (id d))) s)
             <-> In x s /\ id x <> id d).
  { intros x. rewrite filter_In, negb_true_iff, Z.eqb_neq. reflexivity. }
  split; [| split; [exact Hmem |]].
  - unfold dispatch, view, requires_auth. rewrite Hauth.
    destruct (find_present d s Hin) as (d' & F & E).
    cbv beta iota zeta
        delta [delete_drink try_except bind ret get_or_404 delete].
    rewrite F, E. reflexivity.
  - unfold dispatch, view, requires_auth. rewrite Hauth.
    rewrite delete_drink_absent; [reflexivity |].
    intros x Hx. now apply Hmem in Hx.
Qed.

(** A view that returns answers 200. *)
Lemma view_returned_status r req s resp s' :
  view auth refuses r req s = (Returned resp, s') -> status resp = 200.
Proof.
  unfold view, requires_auth. intros H.
  destruct r as [ | | | i | i];
    try (destruct (auth _ _) as [a | payload]; [discriminate H |]).
  - destruct (get_drinks_cases s) as [(shorts & _ & G) | G];
      rewrite G in H; inversion H. reflexivity.
  - rewrite get_drinks_detail_total in H. inversion H. reflexivity.
  - apply post_drink_returned in H as [sh ->]. reflexivity.
  - apply patch_drink_returned in H as (shorts & _ & ->). reflexivity.
  - apply delete_drink_returned in H as ->. reflexivity.
Qed.

(** The codes of the answers, route by route, for a request that is past the
    authorization check: GET /drinks, GET /drinks-detail and DELETE answer
    200 or 500 and nothing else, POST 200, 422, 400 or 500, PATCH 200, 404,
    422, 400 or 500. *)
Theorem answer_codes_by_route r req s :
  (forall permission,
      required_permission r = Some permission ->
      exists claims, auth permission (authorization req) = inr claims) ->
  In (status (fst (dispatch auth refuses r req s))) (200 :: failure_codes r).
Proof.
  intros Hauth. unfold dispatch.
  assert (I1 : incl [500] [400; 404; 422; 500])
    by (intros c [<- | []]; simpl; tauto).
  assert (I2 : incl [422; 400] [400; 404; 422; 500])
    by (intros c [<- | [<- | []]]; simpl; tauto).
  assert (I3 : incl [404; 422; 400] [400; 404; 422; 500])
    by (intros c [<- | [<- | [<- | []]]]; simpl; tauto).
  destruct (view auth refuses r req s) as [[resp | e] s'] eqn:V.
  - left. symmetry. eapply view_returned_status; exact V.
  - right. cbn [fst]. unfold view, requires_auth in V.
    destruct r as [ | | | i | i]; cbn [failure_codes].
    + apply get_drinks_aborts in V.
      destruct (aborts_with_status _ _ I1 V) as [H | H];
        [exact H | now left].
    + destruct (Hauth _ eq_refl) as [claims Ha]. rewrite Ha in V.
      rewrite get_drinks_detail_total in V. discriminate V.
    + destruct (Hauth _ eq_refl) as [claims Ha]. rewrite Ha in V.
      apply post_drink_aborts in V.
      destruct (aborts_with_status _ _ I2 V) as [[H | [H | []]] | H];
        rewrite <- ?H, ?H; simpl; tauto.
    + destruct (Hauth _ eq_refl) as [claims Ha]. rewrite Ha in V.
      apply patch_drink_aborts in V.
      destruct (aborts_with_status _ _ I3 V) as [[H | [H | [H | []]]] | H];
        rewrite <- ?H, ?H; simpl; tauto.
    + destruct (Hauth _ eq_refl) as [claims Ha]. rewrite Ha in V.
      apply delete_drink_aborts in V.
      destruct (aborts_with_status _ _ I1 V) as [H | H];
        [exact H | now left].
Qed.

(** On a table of checked rows a request that is answered by an error
    handler has written nothing. *)
Theorem failed_request_leaves_table r req s e s' :
  rows_ok s ->
  view auth refuses r req s = (Raised e, s') ->
  s' = s
  /\ dispatch auth refuses r req s = (handle_exception e, s).
Proof.
  intros Hrows V.
  assert (Hs : s' = s).
  { unfold view, requires_auth in V.
    destruct r as [ | | | i | i];
      try (destruct (auth _ _) as [a | payload]; [now inversion V |]).
    - rewrite (get_drinks_rows_ok _ Hrows) in V. discriminate V.
    - rewrite get_drinks_detail_total in V. discriminate V.
    - apply post_drink_steps in V
        as [-> | (fields & t & _ & _ & _ & _ & H)];
        [reflexivity | discriminate H].
    - apply patch_drink_steps in V
        as [-> | (d & fields & t & _ & _ & _ & _ & _ & H)];
        [reflexivity | discriminate (H Hrows)].
    - revert V. unfold delete_drink.
      cbv beta iota zeta
          delta [try_except bind ret get_or_404 delete logging_exception
                 abort raise].
      destruct (find _ s); intros V; now inversion V. }
  split; [exact Hs |]. subst s'. unfold dispatch. now rewrite V.
Qed.

(** What each route may do to the table, whatever it answers: the two GET
    routes write nothing; POST appends at most one row, with a key no row
    had; PATCH keeps the keys, their order and their number; DELETE adds
    nothing. *)
Theorem routes_write_their_own_way r req s :
  match r with
  | GET_drinks | GET_drinks_detail =>
      snd (dispatch auth refuses r req s) = s
  | POST_drinks =>
      snd (dispatch auth refuses r req s) = s
      \/ exists d,
          snd (dispatch auth refuses r req s) = (s ++ [d])%list
          /\ absent (id d) s
  | PATCH_drinks _ =>
      map id (snd (dispatch auth refuses r req s)) = map id s
  | DELETE_drinks _ =>
      forall x, In x (snd (dispatch auth refuses r req s)) -> In x s
  end.
Proof.
  rewrite dispatch_store.
  destruct (view auth refuses r req s) as [res s'] eqn:V. cbn [snd].
  apply view_store in V
    as [-> | [(-> & t & rcp & _ & ->)
             | [(i & d & t & rcp & -> & _ & ->) | (i & d & -> & ->)]]].
  - destruct r; auto.
  - right. eexists. split; [reflexivity |].
    intros d Hd E. apply next_id_above in Hd. cbn [id] in E. lia.
  - apply map_id_update.
  - intros x Hx. now apply filter_In in Hx as [Hx _].
Qed.

(** Every request keeps the rows checked. *)
Lemma dispatch_rows_ok r req s :
  rows_ok s -> rows_ok (snd (dispatch auth refuses r req s)).
Proof.
  intros Hrows. rewrite dispatch_store.
  destruct (view auth refuses r req s) as [res s'] eqn:V. cbn [snd].
  unfold view, requires_auth in V.
  destruct r as [ | | | i | i];
    try (destruct (auth _ _) as [a | payload];
         [inversion V; subst; exact Hrows |]).
  - rewrite (get_drinks_rows_ok _ Hrows) in V.
    inversion V; subst; exact Hrows.
  - rewrite get_drinks_detail_total in V. inversion V; subst; exact Hrows.
  - apply post_drink_steps in V
      as [-> | (fields & t & _ & Hok & Ht & -> & _)]; [exact Hrows |].
    apply rows_ok_insert; [exact Hrows |].
    now apply row_ok_of_attributes.
  - apply patch_drink_steps in V
      as [-> | (d & fields & t & _ & _ & Hok & Ht & -> & _)];
      [exact Hrows |].
    apply rows_ok_rewrite; [exact Hrows |].
    now apply row_ok_of_attributes.
  - apply delete_drink_store in V as [-> | (d & ->)]; [exact Hrows |].
    now apply rows_ok_filter.
Qed.

Lemma serve_rows_ok reqs s :
  rows_ok s -> rows_ok (snd (serve auth refuses reqs s)).
Proof.
  revert s. induction reqs as [| [r req] reqs IH]; intros s Hk; [exact Hk |].
  simpl. pose proof (dispatch_rows_ok r req s Hk) as Hk'.
  destruct (dispatch auth refuses r req s) as [resp s1]. simpl in Hk'.
  specialize (IH s1 Hk').
  destruct (serve auth refuses reqs s1) as [resps s2]. exact IH.
Qed.

(** Whatever was persisted and whatever requests a process has served
    since its start, every row of the table has a title that is not empty
    and a recipe that is a non-empty list of objects with truthy name,
    parts and color. *)
Theorem reachable_rows_ok persisted reqs :
  rows_ok (snd (serve auth refuses reqs (startup persisted))).
Proof. apply serve_rows_ok. constructor. Qed.

(** Whatever requests a process has served since its start, GET /drinks
    answers 200 with the short form of every row and writes nothing. *)
Theorem get_drinks_succeeds_after_startup persisted reqs req :
  dispatch auth refuses GET_drinks req
    (snd (serve auth refuses reqs (startup persisted)))
  = (jsonify
       [("sucess", JBool true);
        ("drinks",
         JArr (map short_of
                 (snd (serve auth refuses reqs (startup persisted)))))],
     snd (serve auth refuses reqs (startup persisted))).
Proof.
  unfold dispatch, view.
  rewrite get_drinks_rows_ok; [reflexivity |].
  apply serve_rows_ok. constructor.
Qed.

(** Requests that are no PATCH keep the titles unique up to case, however
    many are served. *)
Theorem titles_unique_without_patch reqs s :
  Forall (fun rr => forall i, fst rr <> PATCH_drinks i) reqs ->
  titles_unique s ->
  titles_unique (snd (serve auth refuses reqs s)).
Proof.
  intros Hreqs. revert s.
  induction Hreqs as [| [r req] reqs Hr _ IH]; intros s Hu; [exact Hu |].
  simpl. pose proof (dispatch_titles_unique auth refuses r req s Hr Hu) as Hu'.
  destruct (dispatch auth refuses r req s) as [resp s1]. simpl in Hu'.
  specialize (IH s1 Hu').
  destruct (serve auth refuses reqs s1) as [resps s2]. exact IH.
Qed.

(** Every answer, of a view or of an error handler, leaves with the two
    Access-Control headers of [after_request], each once; the hook changes
    neither the status nor the body nor the table. *)
Theorem cors_headers_on_every_answer r req s :
  header_values (headers (fst (full_dispatch auth refuses r req s)))
    "Access-Control-Allow-Headers"
  = ["Content-Type, Authorization"]
  /\ header_values (headers (fst (full_dispatch auth refuses r req s)))
       "Access-Control-Allow-Methods"
     = ["GET, POST, PATCH, DELETE, OPTIONS"]
  /\ answer (fst (full_dispatch auth refuses r req s))
     = fst (dispatch auth refuses r req s)
  /\ snd (full_dispatch auth refuses r req s)
     = snd (dispatch auth refuses r req s).
Proof.
  unfold full_dispatch.
  destruct (dispatch auth refuses r req s) as [resp s'].
  unfold content_type. destruct (body resp); repeat split.
Qed.

(** ** Requests one after the other *)

Lemma filter_title_appended t t' k rcp s :
  (forall d, In d s -> lower (title d) <> lower t) ->
  lower t' = lower t ->
  filter (fun d => String.eqb (lower (title d)) (lower t'))
    (s ++ [mkDrink k t rcp])
  = [mkDrink k t rcp].
Proof.
  intros Hfree Hsame. rewrite filter_app, Hsame.
  rewrite (filter_no_title _ _ Hfree). cbn [filter title app].
  now rewrite String.eqb_refl.
Qed.

(** A title posted twice, the second time in any case: the first POST
    creates the drink, the second is answered 422 and the table keeps the
    one row. *)
Theorem post_twice_rejected req req2 claims claims2 fields fields2 t t2 s :
  auth "post:drinks" (authorization req) = inr claims ->
  auth "post:drinks" (authorization req2) = inr claims2 ->
  content req = Document (JObj fields) ->
  attributes_ok fields = true ->
  dict_get fields "title" = JStr t ->
  (forall d, In d s -> lower (title d) <> lower t) ->
  refuses s (mkDrink (next_id s) t (dict_get fields "recipe")) = false ->
  content req2 = Document (JObj fields2) ->
  attributes_ok fields2 = true ->
  dict_get fields2 "title" = JStr t2 ->
  lower t2 = lower t ->
  serve auth refuses [(POST_drinks, req); (POST_drinks, req2)] s
  = ([jsonify
        [("success", JBool true);
         ("drinks",
          JArr [short_of (mkDrink (next_id s) t
                            (dict_get fields "recipe"))])];
      unprocessable],
     (s ++ [mkDrink (next_id s) t (dict_get fields "recipe")])%list).
Proof.
  intros Ha Ha2 Hdata Hok Ht Hfree Hacc Hdata2 Hok2 Ht2 Hsame.
  cbn [serve]. unfold dispatch at 1, view, requires_auth. rewrite Ha.
  rewrite (post_drink_insert _ _ _ _ _ Hdata Hok Ht Hfree), Hacc.
  unfold dispatch, view, requires_auth. rewrite Ha2.
  unfold post_drink.
  rewrite (get_json_document _ _ Hdata2), bind_ret_l. cbv beta.
  unfold bind at 1. rewrite (check_drink_attribute_passes _ _ Hok2).
  cbn [get]. unfold bind at 1. cbn [ret]. rewrite Ht2.
  cbn [column_text]. unfold bind at 1. cbn [ret].
  unfold bind at 1, query_filter.
  rewrite (filter_title_appended _ _ _ _ _ Hfree Hsame). reflexivity.
Qed.

Lemma filter_above_keys s d k :
  id d = k -> (forall x, In x s -> id x <> k) ->
  filter (fun x => negb (Z.eqb (id x) k)) (s ++ [d]) = s.
Proof.
  intros Hd H. rewrite filter_app. cbn [filter]. rewrite Hd, Z.eqb_refl.
  cbn [negb]. rewrite app_nil_r.
  induction s as [| x s IH]; [reflexivity |].
  cbn [filter]. destruct (Z.eqb_spec (id x) k) as [E | _].
  - destruct (H x (or_introl eq_refl) E).
  - cbn [negb]. f_equal. apply IH. intros y Hy. apply H. now right.
Qed.

(** Creating a drink and deleting it by the key it was given restores the
    table: both requests are answered 200 and the table is the one before
    the POST. *)
Theorem post_then_delete_restores req req' claims claims' fields t s :
  auth "post:drinks" (authorization req) = inr claims ->
  auth "delete:drinks" (authorization req') = inr claims' ->
  content req = Document (JObj fields) ->
  attributes_ok fields = true ->
  dict_get fields "title" = JStr t ->
  (forall d, In d s -> lower (title d) <> lower t) ->
  refuses s (mkDrink (next_id s) t (dict_get fields "recipe")) = false ->
  serve auth refuses
    [(POST_drinks, req); (DELETE_drinks (next_id s), req')] s
  = ([jsonify
        [("success", JBool true);
         ("drinks",
          JArr [short_of (mkDrink (next_id s) t
                            (dict_get fields "recipe"))])];
      jsonify [("success", JBool true); ("delete", JNum (next_id s))]],
     s).
Proof.
  intros Ha Ha' Hdata Hok Ht Hfree Hacc.
  cbn [serve]. unfold dispatch at 1, view, requires_auth. rewrite Ha.
  rewrite (post_drink_insert _ _ _ _ _ Hdata Hok Ht Hfree), Hacc.
  unfold dispatch, view, requires_auth. rewrite Ha'.
  set (new := mkDrink (next_id s) t (dict_get fields "recipe")).
  assert (Hin : In new (s ++ [new])) by (apply in_or_app; right; now left).
  destruct (find_present new _ Hin) as (d' & F & E).
  cbv beta iota zeta
      delta [delete_drink try_except bind ret get_or_404 delete].
  change (id new) with (next_id s) in F, E. rewrite F, E.
  rewrite (filter_above_keys s new (next_id s) eq_refl); [reflexivity |].
  intros x Hx Ex. apply next_id_above in Hx. lia.
Qed.

Lemma filter_rewrite_row d t rcp s :
  filter (fun x => negb (Z.eqb (id x) (id d))) (rewrite_row d t rcp s)
  = filter (fun x => negb (Z.eqb (id x) (id d))) s.
Proof.
  unfold rewrite_row. induction s as [| x s IH]; [reflexivity |].
  cbn [map filter].
  destruct (Z.eqb_spec (id x) (id d)) as [E | N].
  - cbn [id]. rewrite Z.eqb_refl. cbn [negb]. exact IH.
  - destruct (Z.eqb_spec (id x) (id d)) as [E | _]; [contradiction |].
    cbn [negb]. f_equal. exact IH.
Qed.

Lemma rewrite_row_twice d t rcp s :
  rewrite_row (mkDrink (id d) t rcp) t rcp (rewrite_row d t rcp s)
  = rewrite_row d t rcp s.
Proof.
  unfold rewrite_row. cbn [id]. rewrite map_map. apply map_ext. intros x.
  destruct (Z.eqb_spec (id x) (id d)) as [E | N].
  - cbn [id]. now rewrite Z.eqb_refl.
  - destruct (Z.eqb_spec (id x) (id d)) as [E | _]; [contradiction |].
    reflexivity.
Qed.

(** PATCH is idempotent: the same update sent twice to an existing id is
    answered 200 both times with the same body, and the table after the
    second is the table after the first. *)
Theorem patch_twice_same_table req claims fields t d s :
  auth "patch:drinks" (authorization req) = inr claims ->
  primary_keys s -> rows_ok s -> In d s ->
  content req = Document (JObj fields) ->
  attributes_ok fields = true ->
  dict_get fields "title" = JStr t ->
  refuses (filter (fun x => negb (Z.eqb (id x) (id d))) s)
    (mkDrink (id d) t (dict_get fields "recipe")) = false ->
  serve auth refuses
    [(PATCH_drinks (id d), req); (PATCH_drinks (id d), req)] s
  = ([jsonify
        [("sucess", JBool true);
         ("drinks",
          JArr (map short_of
                  (rewrite_row d t (dict_get fields "recipe") s)))];
      jsonify
        [("sucess", JBool true);
         ("drinks",
          JArr (map short_of
                  (rewrite_row d t (dict_get fields "recipe") s)))]],
     rewrite_row d t (dict_get fields "recipe") s).
Proof.
  intros Ha Hk Hrows Hin Hdata Hok Ht Hacc.
  set (rcp := dict_get fields "recipe") in *.
  set (d1 := mkDrink (id d) t rcp).
  assert (Hk1 : primary_keys (rewrite_row d t rcp s)).
  { unfold primary_keys, rewrite_row. now rewrite map_id_update. }
  assert (Hrows1 : rows_ok (rewrite_row d t rcp s)).
  { apply rows_ok_rewrite; [exact Hrows |].
    now apply row_ok_of_attributes. }
  assert (Hin1 : In d1 (rewrite_row d t rcp s)).
  { unfold rewrite_row. apply in_map_iff. exists d.
    rewrite Z.eqb_refl. split; [reflexivity | exact Hin]. }
  cbn [serve]. unfold dispatch at 1, view, requires_auth. rewrite Ha.
  rewrite (patch_drink_update _ _ _ _ _ _ Hk Hrows Hin Hdata Hok Ht).
  fold rcp. rewrite Hacc.
  unfold dispatch, view, requires_auth. rewrite Ha.
  change (id d) with (id d1) at 1.
  rewrite (patch_drink_update _ _ _ _ _ _ Hk1 Hrows1 Hin1 Hdata Hok Ht).
  fold rcp. change (id d1) with (id d).
  rewrite filter_rewrite_row, Hacc.
  unfold d1. rewrite rewrite_row_twice. reflexivity.
Qed.
End Coverage.

(** ** Worked instances *)

Lemma menu_keys : primary_keys Fixture.menu.
Proof. repeat constructor. intros []. Qed.

Lemma menu_rows_ok : rows_ok Fixture.menu.
Proof. repeat constructor. Qed.

Lemma two_drinks_keys : primary_keys Fixture.two_drinks.
Proof.
  repeat constructor; [intros [E | []]; discriminate E | intros []].
Qed.

Lemma two_drinks_rows_ok : rows_ok Fixture.two_drinks.
Proof. repeat constructor. Qed.

Lemma missing_attribute_rejected_witness :
  content (Fixture.as_manager Fixture.mocha_no_recipe)
  = Document (JObj [("title", JStr "Mocha")])
  /\ assoc "recipe" [("title", JStr "Mocha")] = None
  /\ Fixture.dispatch POST_drinks
       (Fixture.as_manager Fixture.mocha_no_recipe) Fixture.menu
     = (unprocessable, Fixture.menu)
  /\ Fixture.dispatch (PATCH_drinks 1)
       (Fixture.as_manager Fixture.mocha_no_recipe) Fixture.menu
     = (unprocessable, Fixture.menu).
Proof.
  split; [reflexivity |]. split; [reflexivity |].
  destruct (missing_attribute_rejected Fixture.check_auth Fixture.title_taken
              (Fixture.as_manager Fixture.mocha_no_recipe)
              (Fixture.claim_set Fixture.manager_permissions)
              [("title", JStr "Mocha")] Fixture.menu eq_refl)
    as [Hpost Hpatch].
  - intros entries H. discriminate H.
  - right. left. reflexivity.
  - split; [exact (Hpost eq_refl) |].
    exact (Hpatch (mkDrink 1 "Water"
                     (JArr [Fixture.ingredient "water" "blue" 1]))
             eq_refl menu_keys (or_introl eq_refl)).
Defined.

Lemma payload_not_object_answers_500_witness :
  content (Fixture.as_manager JNull) = Document JNull
  /\ is_dict JNull = false
  /\ Fixture.dispatch POST_drinks (Fixture.as_manager JNull) Fixture.menu
     = (unknown, Fixture.menu)
  /\ Fixture.dispatch (PATCH_drinks 1) (Fixture.as_manager JNull)
       Fixture.menu
     = (unknown, Fixture.menu).
Proof.
  split; [reflexivity |]. split; [reflexivity |].
  destruct (payload_not_object_answers_500 Fixture.check_auth
              Fixture.title_taken (Fixture.as_manager JNull)
              (Fixture.claim_set Fixture.manager_permissions)
              JNull Fixture.menu eq_refl eq_refl)
    as [Hpost Hpatch].
  split; [exact (Hpost eq_refl) |].
  exact (Hpatch (mkDrink 1 "Water"
                   (JArr [Fixture.ingredient "water" "blue" 1]))
           eq_refl menu_keys (or_introl eq_refl)).
Defined.

Lemma get_drinks_detail_lists_long_forms_witness :
  Fixture.check_auth "get:drinks-detail"
    (authorization (Fixture.as_barista JNull))
  = inr (Fixture.claim_set Fixture.barista_permissions)
  /\ Fixture.dispatch GET_drinks_detail (Fixture.as_barista JNull)
       Fixture.menu
     = (jsonify [("sucess", JBool true);
                 ("drinks", JArr (map long_of Fixture.menu))],
        Fixture.menu).
Proof.
  split; [reflexivity |].
  exact (get_drinks_detail_lists_long_forms Fixture.check_auth
           Fixture.title_taken (Fixture.as_barista JNull)
           (Fixture.claim_set Fixture.barista_permissions)
           Fixture.menu eq_refl).
Defined.

Lemma get_drinks_lists_short_forms_witness :
  rows_ok Fixture.menu
  /\ Fixture.dispatch GET_drinks (Fixture.anonymous JNull) Fixture.menu
     = (jsonify [("sucess", JBool true);
                 ("drinks", JArr (map short_of Fixture.menu))],
        Fixture.menu).
Proof.
  split; [exact menu_rows_ok |].
  exact (proj1 (get_drinks_lists_short_forms Fixture.check_auth
                  Fixture.title_taken (Fixture.anonymous JNull)
                  Fixture.menu menu_rows_ok)).
Defined.

Lemma unauthorized_request_rejected_witness :
  required_permission POST_drinks = Some "post:drinks"
  /\ Fixture.check_auth "post:drinks"
       (authorization (Fixture.as_barista Fixture.tea))
     = inl (Fixture.auth_failure 403 "unauthorized" "Permission not found.")
  /\ Fixture.dispatch POST_drinks (Fixture.as_barista Fixture.tea)
       Fixture.menu
     = (auth_error
          (Fixture.auth_failure 403 "unauthorized" "Permission not found."),
        Fixture.menu)
  /\ status
       (auth_error
          (Fixture.auth_failure 403 "unauthorized" "Permission not found."))
     = 403.
Proof.
  split; [reflexivity |]. split; [reflexivity |].
  exact (unauthorized_request_rejected Fixture.check_auth Fixture.title_taken
           POST_drinks "post:drinks" (Fixture.as_barista Fixture.tea)
           (Fixture.auth_failure 403 "unauthorized" "Permission not found.")
           Fixture.menu eq_refl eq_refl).
Defined.

Lemma tea_is_new d : In d Fixture.menu -> lower (title d) <> lower "Tea".
Proof. intros [<- | []]. discriminate. Qed.

Lemma post_creates_drink_witness :
  attributes_ok [("title", JStr "Tea");
                 ("recipe", JArr [Fixture.ingredient "tea" "green" 1])]
  = true
  /\ Fixture.dispatch POST_drinks (Fixture.as_manager Fixture.tea)
       Fixture.menu
     = (jsonify
          [("success", JBool true);
           ("drinks",
            JArr [short_of
                    (mkDrink 2 "Tea"
                       (JArr [Fixture.ingredient "tea" "green" 1]))])],
        Fixture.two_drinks)
  /\ absent 2 Fixture.menu.
Proof.
  split; [reflexivity |].
  exact (post_creates_drink Fixture.check_auth Fixture.title_taken
           (Fixture.as_manager Fixture.tea)
           (Fixture.claim_set Fixture.manager_permissions)
           [("title", JStr "Tea");
            ("recipe", JArr [Fixture.ingredient "tea" "green" 1])]
           "Tea" Fixture.menu eq_refl eq_refl eq_refl eq_refl tea_is_new
           eq_refl).
Defined.

Lemma post_then_detail_round_trip_witness :
  snd (Fixture.serve [(POST_drinks, Fixture.as_manager Fixture.tea)]
         Fixture.menu)
  = Fixture.two_drinks
  /\ fst (Fixture.dispatch GET_drinks_detail (Fixture.as_barista JNull)
            (snd (Fixture.serve
                    [(POST_drinks, Fixture.as_manager Fixture.tea)]
                    Fixture.menu)))
     = jsonify
         [("sucess", JBool true);
          ("drinks",
           JArr [long_of (mkDrink 1 "Water"
                            (JArr [Fixture.ingredient "water" "blue" 1]));
                 JObj [("id", JNum 2); ("title", JStr "Tea");
                       ("recipe",
                        JArr [Fixture.ingredient "tea" "green" 1])]])].
Proof.
  exact (post_then_detail_round_trip Fixture.check_auth Fixture.title_taken
           (Fixture.as_manager Fixture.tea) (Fixture.as_barista JNull)
           (Fixture.claim_set Fixture.manager_permissions)
           (Fixture.claim_set Fixture.barista_permissions)
           [("title", JStr "Tea");
            ("recipe", JArr [Fixture.ingredient "tea" "green" 1])]
           "Tea" Fixture.menu eq_refl eq_refl eq_refl eq_refl eq_refl
           tea_is_new eq_refl).
Defined.

Lemma cappuccino_is_new d :
  In d Fixture.menu -> lower (title d) <> lower "Cappuccino".
Proof. intros [<- | []]. discriminate. Qed.

Lemma refused_write_answers_400_witness :
  Fixture.title_too_long Fixture.menu
    (mkDrink 2 "Cappuccino" (JArr [Fixture.ingredient "milk" "white" 1]))
  = true
  /\ dispatch Fixture.check_auth Fixture.title_too_long POST_drinks
       (Fixture.as_manager Fixture.cappuccino) Fixture.menu
     = (bad_request, Fixture.menu)
  /\ dispatch Fixture.check_auth Fixture.title_too_long (PATCH_drinks 1)
       (Fixture.as_manager Fixture.cappuccino) Fixture.menu
     = (bad_request, Fixture.menu).
Proof.
  split; [reflexivity |].
  destruct (refused_write_answers_400 Fixture.check_auth
              Fixture.title_too_long
              (Fixture.as_manager Fixture.cappuccino)
              (Fixture.claim_set Fixture.manager_permissions)
              [("title", JStr "Cappuccino");
               ("recipe", JArr [Fixture.ingredient "milk" "white" 1])]
              "Cappuccino" Fixture.menu eq_refl eq_refl eq_refl)
    as [Hpost Hpatch].
  split; [exact (Hpost eq_refl cappuccino_is_new eq_refl) |].
  exact (Hpatch (mkDrink 1 "Water"
                   (JArr [Fixture.ingredient "water" "blue" 1]))
           eq_refl menu_keys (or_introl eq_refl) eq_refl).
Defined.

Lemma patch_rewrites_drink_witness :
  In (mkDrink 2 "Tea" (JArr [Fixture.ingredient "tea" "green" 1]))
     Fixture.two_drinks
  /\ Fixture.dispatch (PATCH_drinks 2) (Fixture.as_manager Fixture.chai)
       Fixture.two_drinks
     = (jsonify
          [("sucess", JBool true);
           ("drinks",
            JArr [short_of
                    (mkDrink 1 "Water"
                       (JArr [Fixture.ingredient "water" "blue" 1]));
                  short_of
                    (mkDrink 2 "Chai"
                       (JArr [Fixture.ingredient "chai" "amber" 2]))])],
        [mkDrink 1 "Water" (JArr [Fixture.ingredient "water" "blue" 1]);
         mkDrink 2 "Chai" (JArr [Fixture.ingredient "chai" "amber" 2])]).
Proof.
  split; [right; left; reflexivity |].
  exact (proj1
           (patch_rewrites_drink Fixture.check_auth Fixture.title_taken
              (Fixture.as_manager Fixture.chai)
              (Fixture.claim_set Fixture.manager_permissions)
              [("title", JStr "Chai");
               ("recipe", JArr [Fixture.ingredient "chai" "amber" 2])]
              "Chai"
              (mkDrink 2 "Tea" (JArr [Fixture.ingredient "tea" "green" 1]))
              Fixture.two_drinks eq_refl two_drinks_keys two_drinks_rows_ok
              (or_intror (or_introl eq_refl)) eq_refl eq_refl eq_refl
              eq_refl)).
Defined.

Lemma delete_removes_drink_witness :
  Fixture.dispatch (DELETE_drinks 1) (Fixture.as_manager JNull)
    Fixture.two_drinks
  = (jsonify [("success", JBool true); ("delete", JNum 1)],
     [mkDrink 2 "Tea" (JArr [Fixture.ingredient "tea" "green" 1])])
  /\ Fixture.dispatch (DELETE_drinks 1) (Fixture.as_manager JNull)
       [mkDrink 2 "Tea" (JArr [Fixture.ingredient "tea" "green" 1])]
     = (unknown,
        [mkDrink 2 "Tea" (JArr [Fixture.ingredient "tea" "green" 1])]).
Proof.
  destruct (delete_removes_drink Fixture.check_auth Fixture.title_taken
              (Fixture.as_manager JNull)
              (Fixture.claim_set Fixture.manager_permissions)
              (mkDrink 1 "Water"
                 (JArr [Fixture.ingredient "water" "blue" 1]))
              Fixture.two_drinks eq_refl (or_introl eq_refl))
    as (H1 & _ & H2).
  split; [exact H1 | exact H2].
Defined.

Lemma answer_codes_by_route_witness :
  (forall permission,
      required_permission (DELETE_drinks 5) = Some permission ->
      exists claims,
        Fixture.check_auth permission
          (authorization (Fixture.as_manager JNull)) = inr claims)
  /\ In (status (fst (Fixture.dispatch (DELETE_drinks 5)
                        (Fixture.as_manager JNull) Fixture.menu)))
        [200; 500].
Proof.
  assert (H : forall permission,
             required_permission (DELETE_drinks 5) = Some permission ->
             exists claims,
               Fixture.check_auth permission
                 (authorization (Fixture.as_manager JNull)) = inr claims).
  { intros permission [= <-]. eexists. reflexivity. }
  split; [exact H |].
  exact (answer_codes_by_route Fixture.check_auth Fixture.title_taken
           (DELETE_drinks 5) (Fixture.as_manager JNull) Fixture.menu H).
Defined.

Lemma failed_request_leaves_table_witness :
  rows_ok Fixture.menu
  /\ view Fixture.check_auth Fixture.title_taken POST_drinks
       (Fixture.as_manager Fixture.water) Fixture.menu
     = (Raised (HTTPException 422), Fixture.menu)
  /\ Fixture.dispatch POST_drinks (Fixture.as_manager Fixture.water)
       Fixture.menu
     = (unprocessable, Fixture.menu).
Proof.
  split; [exact menu_rows_ok |]. split; [reflexivity |].
  exact (proj2
           (failed_request_leaves_table Fixture.check_auth
              Fixture.title_taken POST_drinks
              (Fixture.as_manager Fixture.water) Fixture.menu
              (HTTPException 422) Fixture.menu menu_rows_ok eq_refl)).
Defined.

Lemma titles_unique_without_patch_witness :
  Forall (fun rr : Route * Request => forall i, fst rr <> PATCH_drinks i)
    (firstn 2 Fixture.retitle_history)
  /\ titles_unique
       (snd (Fixture.serve (firstn 2 Fixture.retitle_history) [])).
Proof.
  assert (H : Forall (fun rr : Route * Request =>
                        forall i, fst rr <> PATCH_drinks i)
                (firstn 2 Fixture.retitle_history)).
  { repeat constructor; intros i E; discriminate E. }
  split; [exact H |].
  exact (titles_unique_without_patch Fixture.check_auth Fixture.title_taken
           (firstn 2 Fixture.retitle_history) [] H (NoDup_nil _)).
Defined.

Lemma post_drink_duplicate_title_witness :
  titles_unique Fixture.menu
  /\ lower "WATER" = lower "Water"
  /\ Fixture.dispatch POST_drinks
       (Fixture.as_manager
          (Fixture.drink_payload "WATER"
             [Fixture.ingredient "water" "blue" 1]))
       Fixture.menu
     = (unprocessable, Fixture.menu).
Proof.
  assert (Hu : titles_unique Fixture.menu).
  { repeat constructor. intros []. }
  split; [exact Hu |]. split; [reflexivity |].
  apply (post_drink_duplicate_title Fixture.check_auth Fixture.title_taken
           (Fixture.as_manager
              (Fixture.drink_payload "WATER"
                 [Fixture.ingredient "water" "blue" 1]))
           (Fixture.claim_set Fixture.manager_permissions)
           [("title", JStr "WATER");
            ("recipe", JArr [Fixture.ingredient "water" "blue" 1])]
           "WATER"
           (mkDrink 1 "Water" (JArr [Fixture.ingredient "water" "blue" 1]))
           Fixture.menu eq_refl eq_refl).
  - intros entries [= <-]. repeat constructor.
  - reflexivity.
  - exact Hu.
  - left. reflexivity.
  - reflexivity.
Defined.

Lemma post_twice_rejected_witness :
  lower "WATER" = lower "Water"
  /\ Fixture.serve
       [(POST_drinks, Fixture.as_manager Fixture.water);
        (POST_drinks,
         Fixture.as_manager
           (Fixture.drink_payload "WATER"
              [Fixture.ingredient "water" "blue" 1]))]
       []
     = ([jsonify
           [("success", JBool true);
            ("drinks",
             JArr [short_of
                     (mkDrink 1 "Water"
                        (JArr [Fixture.ingredient "water" "blue" 1]))])];
         unprocessable],
        Fixture.menu).
Proof.
  split; [reflexivity |].
  exact (post_twice_rejected Fixture.check_auth Fixture.title_taken
           (Fixture.as_manager Fixture.water)
           (Fixture.as_manager
              (Fixture.drink_payload "WATER"
                 [Fixture.ingredient "water" "blue" 1]))
           (Fixture.claim_set Fixture.manager_permissions)
           (Fixture.claim_set Fixture.manager_permissions)
           [("title", JStr "Water");
            ("recipe", JArr [Fixture.ingredient "water" "blue" 1])]
           [("title", JStr "WATER");
            ("recipe", JArr [Fixture.ingredient "water" "blue" 1])]
           "Water" "WATER" [] eq_refl eq_refl eq_refl eq_refl eq_refl
           (fun d (H : In d []) => match H with end)
           eq_refl eq_refl eq_refl eq_refl eq_refl).
Defined.

Lemma post_then_delete_restores_witness :
  next_id Fixture.menu = 2
  /\ Fixture.serve
       [(POST_drinks, Fixture.as_manager Fixture.tea);
        (DELETE_drinks 2, Fixture.as_manager JNull)]
       Fixture.menu
     = ([jsonify
           [("success", JBool true);
            ("drinks",
             JArr [short_of
                     (mkDrink 2 "Tea"
                        (JArr [Fixture.ingredient "tea" "green" 1]))])];
         jsonify [("success", JBool true); ("delete", JNum 2)]],
        Fixture.menu).
Proof.
  split; [reflexivity |].
  exact (post_then_delete_restores Fixture.check_auth Fixture.title_taken
           (Fixture.as_manager Fixture.tea) (Fixture.as_manager JNull)
           (Fixture.claim_set Fixture.manager_permissions)
           (Fixture.claim_set Fixture.manager_permissions)
           [("title", JStr "Tea");
            ("recipe", JArr [Fixture.ingredient "tea" "green" 1])]
           "Tea" Fixture.menu eq_refl eq_refl eq_refl eq_refl eq_refl
           tea_is_new eq_refl).
Defined.

Lemma patch_twice_same_table_witness :
  primary_keys Fixture.two_drinks
  /\ rows_ok Fixture.two_drinks
  /\ snd (Fixture.serve
            [(PATCH_drinks 2, Fixture.as_manager Fixture.chai);
             (PATCH_drinks 2, Fixture.as_manager Fixture.chai)]
            Fixture.two_drinks)
     = [mkDrink 1 "Water" (JArr [Fixture.ingredient "water" "blue" 1]);
        mkDrink 2 "Chai" (JArr [Fixture.ingredient "chai" "amber" 2])].
Proof.
  split; [exact two_drinks_keys |]. split; [exact two_drinks_rows_ok |].
  exact (f_equal snd
           (patch_twice_same_table Fixture.check_auth Fixture.title_taken
              (Fixture.as_manager Fixture.chai)
              (Fixture.claim_set Fixture.manager_permissions)
              [("title", JStr "Chai");
               ("recipe", JArr [Fixture.ingredient "chai" "amber" 2])]
              "Chai"
              (mkDrink 2 "Tea" (JArr [Fixture.ingredient "tea" "green" 1]))
              Fixture.two_drinks eq_refl two_drinks_keys two_drinks_rows_ok
              (or_intror (or_introl eq_refl)) eq_refl eq_refl eq_refl
              eq_refl)).
Defined.
